(** * FlowForge: the Draw.io to Mermaid converter, embedded and verified

    A shallow embedding of [flowforge/flowforge.py] (the hardened
    converter; [flowforge.py] at the top level shares [parse_style] and the
    emitter verbatim).  Python strings are modelled by [string], read as
    sequences of code points below 256; dictionaries whose iteration order
    is never observed ([style_dict], [node_map]) are [gmap]s, the group index,
    whose insertion order drives emission, is an association list. *)

From Stdlib Require Import Ascii String ZArith List Lia.
From Stdlib.Strings Require Byte.
From stdpp Require Import base option gmap strings list.

(** ** Python string primitives used by the converter *)

Module Py.

(** [bool(s)] for a string. *)
Definition truthy (s : string) : bool :=
  match s with EmptyString => false | String _ _ => true end.

(** [s.startswith(p)]. *)
Fixpoint startswith (p s : string) : bool :=
  match p with
  | EmptyString => true
  | String a p' =>
      match s with
      | EmptyString => false
      | String b s' => if Ascii.eqb a b then startswith p' s' else false
      end
  end.

(** [sub in s]. *)
Fixpoint str_in (sub s : string) : bool :=
  if startswith sub s then true
  else match s with
       | EmptyString => false
       | String _ s' => str_in sub s'
       end.

(** [s.split(sep)] for a one-character separator. *)
Fixpoint split (sep : ascii) (s : string) : list string :=
  match s with
  | EmptyString => [EmptyString]
  | String c s' =>
      if Ascii.eqb c sep then EmptyString :: split sep s'
      else match split sep s' with
           | t :: ts => String c t :: ts
           | [] => [String c EmptyString]
           end
  end.

(** [s.split(sep, 1)] for a one-character separator. *)
Fixpoint split1 (sep : ascii) (s : string) : list string :=
  match s with
  | EmptyString => [EmptyString]
  | String c s' =>
      if Ascii.eqb c sep then [EmptyString; s']
      else match split1 sep s' with
           | t :: ts => String c t :: ts
           | [] => [String c EmptyString]
           end
  end.

(** [sep.join(parts)]. *)
Fixpoint join (sep : string) (parts : list string) : string :=
  match parts with
  | [] => EmptyString
  | [p] => p
  | p :: ps => p +:+ sep +:+ join sep ps
  end.

(** [c.isspace()] on the code points below 256. *)
Definition isspace (c : ascii) : bool :=
  let n := nat_of_ascii c in
  ((9 <=? n) && (n <=? 13)) || ((28 <=? n) && (n <=? 32))
  || (n =? 133) || (n =? 160).

Fixpoint lstrip (s : string) : string :=
  match s with
  | EmptyString => EmptyString
  | String c s' => if isspace c then lstrip s' else s
  end.

Fixpoint rstrip (s : string) : string :=
  match s with
  | EmptyString => EmptyString
  | String c s' =>
      match rstrip s' with
      | EmptyString => if isspace c then EmptyString else String c EmptyString
      | r => String c r
      end
  end.

(** [s.strip()]. *)
Definition strip (s : string) : string := rstrip (lstrip s).

(** [c.lower()] on the code points below 256: A-Z and the Latin-1 capitals. *)
Definition lower_char (c : ascii) : ascii :=
  let n := nat_of_ascii c in
  if ((65 <=? n) && (n <=? 90))
     || ((192 <=? n) && (n <=? 222) && negb (n =? 215))
  then ascii_of_nat (n + 32) else c.

(** [s.lower()]. *)
Fixpoint lower (s : string) : string :=
  match s with
  | EmptyString => EmptyString
  | String c s' => String (lower_char c) (lower s')
  end.

Fixpoint drop (n : nat) (s : string) : string :=
  match n with
  | O => s
  | S n' => match s with EmptyString => EmptyString | String _ s' => drop n' s' end
  end.

(** [s.replace(old, new)] for a non-empty [old]: leftmost non-overlapping
    occurrences.  [skip] counts the characters of a matched occurrence that
    are still to be passed over. *)
Fixpoint replace_from (skip : nat) (old new s : string) : string :=
  match s with
  | EmptyString => EmptyString
  | String c s' =>
      match skip with
      | S k => replace_from k old new s'
      | O =>
          if startswith old s
          then new +:+ replace_from (String.length old - 1) old new s'
          else String c (replace_from 0 old new s')
      end
  end.

Definition replace (old new s : string) : string := replace_from 0 old new s.

(** ["    " * n] and friends. *)
Fixpoint repeat (s : string) (n : nat) : string :=
  match n with
  | O => EmptyString
  | S n' => s +:+ repeat s n'
  end.

End Py.

(** The double quote, which the emitted notation wraps labels in. *)
Definition dq : string := String "034"%char EmptyString.
(** The line feed. *)
Definition nl : string := String "010"%char EmptyString.

(** ** Style microparser *)

(** A style value: the text after [=], or [True] for a bare flag. *)
Inductive style_value : Type :=
  | SStr (s : string)
  | STrue.

#[global] Instance style_value_eq_dec : EqDecision style_value.
Proof. solve_decision. Defined.

(** One iteration of the loop of [parse_style]. *)
Definition parse_style_token (style_dict : gmap string style_value)
    (token : string) : gmap string style_value :=
  if Py.str_in "=" token then
    match Py.split1 "=" token with
    | [key; value] => <[key := SStr value]> style_dict
    | _ => style_dict
    end
  else if Py.truthy token then <[token := STrue]> style_dict
  else style_dict.

Definition parse_style (style_str : string) : gmap string style_value :=
  if Py.truthy style_str
  then fold_left parse_style_token (Py.split ";" style_str) ∅
  else ∅.

(** ** Data model *)

(** A node of the diagram, as the dictionary built for a vertex cell.  The
    identifier is [None] when the cell carries no [id] attribute. *)
Record Node : Type := mkNode {
  node_id : option string;
  node_label : string;
  node_style : string;
  node_style_dict : gmap string style_value;
  node_geometry : list (string * string);
  node_parent : option string
}.

Record Edge : Type := mkEdge {
  edge_id : option string;
  edge_source : option string;
  edge_target : option string;
  edge_label : string;
  edge_style : string;
  edge_style_dict : gmap string style_value
}.

Record Group : Type := mkGroup {
  group_label : string;
  group_children : list Node
}.

(** [self.diagram]: the group index keeps the insertion order of its keys. *)
Record Diagram : Type := mkDiagram {
  nodes : list Node;
  edges : list Edge;
  groups : list (string * Group)
}.

(** Insertion-ordered dictionary with string keys. *)
Module ODict.

Fixpoint get {V : Type} (k : string) (d : list (string * V)) : option V :=
  match d with
  | [] => None
  | (k', v) :: d' => if String.eqb k k' then Some v else get k d'
  end.

(** [d[k] = v]: in place when the key exists, appended otherwise. *)
Fixpoint set {V : Type} (k : string) (v : V) (d : list (string * V))
  : list (string * V) :=
  match d with
  | [] => [(k, v)]
  | (k', v') :: d' =>
      if String.eqb k k' then (k', v) :: d' else (k', v') :: set k v d'
  end.

Definition keys {V : Type} (d : list (string * V)) : list string := map fst d.

End ODict.

(** ** Node and edge formatting *)

(** [f"{x}"] for an optional string: [None] prints as the word None. *)
Definition fmt_opt (o : option string) : string :=
  match o with Some s => s | None => "None" end.

(** [style.get(k) == v] for a string literal [v]. *)
Definition style_is (style : gmap string style_value) (k v : string) : bool :=
  match style !! k with
  | Some (SStr s) => String.eqb s v
  | _ => false
  end.

(** [bool(style.get(k))]. *)
Definition style_truthy (style : gmap string style_value) (k : string) : bool :=
  match style !! k with
  | Some STrue => true
  | Some (SStr s) => Py.truthy s
  | None => false
  end.

(** [k in style]. *)
Definition style_has (style : gmap string style_value) (k : string) : bool :=
  match style !! k with Some _ => true | None => false end.

(** [_format_node]; [None] stands for the call raising: concatenating the
    letter with a missing id, or lower-casing the flag value [True]. *)
Definition _format_node (node : Node) : option string :=
  let label :=
    if Py.truthy (node_label node) then Py.strip (node_label node)
    else "Node_" +:+ fmt_opt (node_id node) in
  let style := node_style_dict node in
  match node_id node with
  | None => None
  | Some i =>
      let node_id := "N" +:+ i in
      match default (SStr "") (style !! "shape") with
      | STrue => None
      | SStr sh =>
          let shape := Py.lower sh in
          if String.eqb shape "rhombus" then
            Some (node_id +:+ "{" +:+ dq +:+ label +:+ dq +:+ "}")
          else if String.eqb shape "ellipse" || style_has style "ellipse" then
            Some (node_id +:+ "(( " +:+ dq +:+ label +:+ dq +:+ " ))")
          else if style_is style "rounded" "1" || String.eqb shape "stadium" then
            Some (node_id +:+ "(" +:+ dq +:+ label +:+ dq +:+ ")")
          else
            Some (node_id +:+ "[" +:+ dq +:+ label +:+ dq +:+ "]")
      end
  end.

(** The connector chosen by [_format_edge]. *)
Definition edge_arrow (style : gmap string style_value) : string :=
  let arrow := "-->" in
  let arrow :=
    if style_truthy style "dashed" || style_is style "dashed" "1"
    then "-.->" else arrow in
  if style_is style "endArrow" "none" then Py.replace "->" "-" arrow else arrow.

(** [_format_edge]; [None] stands for the call raising on a missing
    endpoint. *)
Definition _format_edge (edge : Edge) : option string :=
  match edge_source edge, edge_target edge with
  | Some s, Some t =>
      let src := "N" +:+ s in
      let tgt := "N" +:+ t in
      let label := Py.strip (edge_label edge) in
      let arrow := edge_arrow (edge_style_dict edge) in
      if Py.truthy label
      then Some (src +:+ " -- " +:+ dq +:+ label +:+ dq +:+ " " +:+ arrow +:+ " " +:+ tgt)
      else Some (src +:+ " " +:+ arrow +:+ " " +:+ tgt)
  | _, _ => None
  end.

(** ** Emission *)

(** The loop over the children of a group in [_emit_subgraph_recursive];
    [rec] is the recursive call, [None] when it does not return. *)
Fixpoint emit_children
    (rec : string -> Group -> nat -> option (list string))
    (groups : list (string * Group)) (indent_level : nat)
    (children : list Node) : option (list string) :=
  match children with
  | [] => Some []
  | child :: rest =>
      let here :=
        match node_id child ≫= (fun i => (fun g => (i, g)) <$> ODict.get i groups) with
        | Some (child_id, nested_group) =>
            rec child_id nested_group (S indent_level)
        | None =>
            match _format_node child with
            | Some node_def =>
                Some [Py.repeat "    " indent_level +:+ "    " +:+ node_def]
            | None => Some []
            end
        end in
      match here with
      | None => None
      | Some l =>
          match emit_children rec groups indent_level rest with
          | None => None
          | Some ls => Some (l ++ ls)
          end
      end
  end.

(** [_emit_subgraph_recursive].  [depth] bounds the nesting of recursive
    calls, as the interpreter's recursion limit does; [None] is the
    [RecursionError] raised when the bound is reached. *)
Fixpoint _emit_subgraph_recursive (depth : nat)
    (groups : list (string * Group))
    (group_id : string) (group : Group) (indent_level : nat)
  : option (list string) :=
  match depth with
  | O => None
  | S depth' =>
      let indent := Py.repeat "    " indent_level in
      match emit_children (_emit_subgraph_recursive depth' groups)
                          groups indent_level (group_children group) with
      | None => None
      | Some body =>
          Some ((indent +:+ "subgraph " +:+ group_id +:+ "["
                   +:+ group_label group +:+ "]") :: body ++ [indent +:+ "end"])
      end
  end.

(** The pass over the group index: the lines collected so far and the set
    [nodes_emitted].  A group whose emission raises is skipped whole. *)
Definition emit_groups (depth : nat) (all : list (string * Group))
  : list (string * Group) -> list string * gset (option string) ->
    list string * gset (option string) :=
  fold_left
    (fun (acc : list string * gset (option string)) (entry : string * Group) =>
       match _emit_subgraph_recursive depth all (fst entry) (snd entry) 0 with
       | Some group_lines =>
           (fst acc ++ group_lines,
            fold_left (fun s child => s ∪ {[ node_id child ]})
                      (group_children (snd entry)) (snd acc))
       | None => acc
       end).

(** The nodes the flat pass formats. *)
Definition flat_nodes (nodes_emitted : gset (option string))
    (ns : list Node) : list Node :=
  filter (fun node => node_id node ∉ nodes_emitted) ns.

(** The edges that pass the endpoint guard. *)
Definition resolvable (node_map : gmap (option string) Node) (edge : Edge) : bool :=
  negb (bool_decide (node_map !! edge_source edge = None)
        || bool_decide (node_map !! edge_target edge = None)).

(** [_emit_mermaid]; [node_map] is the converter's node index at the time
    of the call.  Both branches on [diagram_type] write the same header. *)
Definition _emit_mermaid (depth : nat) (node_map : gmap (option string) Node)
    (diagram : Diagram) (direction diagram_type : string) : string :=
  let lines :=
    if String.eqb diagram_type "flowchart"
    then ["flowchart " +:+ direction]
    else ["flowchart " +:+ direction] in
  let '(group_lines, nodes_emitted) :=
    emit_groups depth (groups diagram) (groups diagram) ([], ∅) in
  let node_lines :=
    omap _format_node (flat_nodes nodes_emitted (nodes diagram)) in
  let edge_lines :=
    omap (fun edge => if resolvable node_map edge then _format_edge edge else None)
         (edges diagram) in
  Py.join nl (lines ++ group_lines ++ node_lines ++ edge_lines).

(** ** XML trees *)

(** An [xml.etree] element: tag, attributes, leading text and children. *)
#[warnings="-register-all"] Inductive Element : Type :=
  mkElement (tag : string) (attrib : list (string * string))
            (text : option string) (children : list Element).

Definition el_tag (e : Element) : string :=
  match e with mkElement t _ _ _ => t end.
Definition el_attrib (e : Element) : list (string * string) :=
  match e with mkElement _ a _ _ => a end.
Definition el_text (e : Element) : option string :=
  match e with mkElement _ _ x _ => x end.
Definition el_children (e : Element) : list Element :=
  match e with mkElement _ _ _ c => c end.

(** [e.get(key)]. *)
Definition el_get (e : Element) (key : string) : option string :=
  ODict.get key (el_attrib e).

(** [e.findall(t)] for a bare tag name: the direct children with that tag. *)
Definition el_findall (e : Element) (t : string) : list Element :=
  filter (fun c => el_tag c = t) (el_children e).

(** [e.find(t)]. *)
Definition el_find (e : Element) (t : string) : option Element :=
  head (el_findall e t).

(** ** Failure policy *)

Inductive exn : Type :=
  | DiagramDecompressionError
  | DiagramParsingError
  | IndexError.

Inductive result (A : Type) : Type :=
  | Ret (a : A)
  | Raise (e : exn).
Arguments Ret {A} a.
Arguments Raise {A} e.

#[global] Instance result_ret : MRet result := fun A a => Ret a.
#[global] Instance result_bind : MBind result := fun A B k r =>
  match r with
  | Ret a => k a
  | Raise e => Raise e
  end.

(** ** Structural builder *)

(** The body of the loop over the cells: nodes, edges and node index. *)
Definition build_cell
    (st : list Node * list Edge * gmap (option string) Node)
    (cell : Element) : list Node * list Edge * gmap (option string) Node :=
  let '(ns, es, node_map) := st in
  let cell_id := el_get cell "id" in
  if bool_decide (cell_id = Some "0" ∨ cell_id = Some "1") then st
  else if bool_decide (el_get cell "vertex" = Some "1") then
    let label := default "" (el_get cell "value") in
    let style := default "" (el_get cell "style") in
    let geometry := el_find cell "mxGeometry" in
    let node := {|
      node_id := cell_id;
      node_label := label;
      node_style := style;
      node_style_dict := parse_style style;
      node_geometry := from_option el_attrib [] geometry;
      node_parent := el_get cell "parent" |} in
    (ns ++ [node], es, <[cell_id := node]> node_map)
  else if bool_decide (el_get cell "edge" = Some "1") then
    let edge := {|
      edge_id := cell_id;
      edge_source := el_get cell "source";
      edge_target := el_get cell "target";
      edge_label := default "" (el_get cell "value");
      edge_style := default "" (el_get cell "style");
      edge_style_dict := parse_style (default "" (el_get cell "style")) |} in
    (ns, es ++ [edge], node_map)
  else st.

(** The body of the loop that detects groups. *)
Definition register_child (node_map : gmap (option string) Node)
    (groups : list (string * Group)) (node : Node) : list (string * Group) :=
  match node_parent node with
  | None => groups
  | Some parent =>
      if Py.truthy parent then
        match node_map !! Some parent with
        | None => groups
        | Some pnode =>
            let parent_style := node_style pnode in
            if Py.str_in "group" parent_style || Py.str_in "swimlane" parent_style
            then
              let groups :=
                match ODict.get parent groups with
                | Some _ => groups
                | None =>
                    ODict.set parent
                      {| group_label :=
                           if Py.truthy (node_label pnode) then node_label pnode
                           else "Group_" +:+ parent;
                         group_children := [] |} groups
                end in
              match ODict.get parent groups with
              | Some g =>
                  ODict.set parent
                    {| group_label := group_label g;
                       group_children := group_children g ++ [node] |} groups
              | None => groups
              end
            else groups
        end
      else groups
  end.

(** [_build_diagram_from_root]: the node index and the diagram. *)
Definition _build_diagram_from_root (root : Element)
  : gmap (option string) Node * Diagram :=
  let root :=
    if String.eqb (el_tag root) "diagram"
    then default root (el_find root "mxGraphModel")
    else root in
  let diagram_root := default root (el_find root "root") in
  let '(ns, es, node_map) :=
    fold_left build_cell (el_findall diagram_root "mxCell") ([], [], ∅) in
  (node_map,
   {| nodes := ns; edges := es;
      groups := fold_left (register_child node_map) ns [] |}).

(** ** Payload extraction *)

(** The graph-model marker. *)
Definition marker : string := "<mxGraphModel".

(** The regular expression [<diagram[^>]*>(.*?)</diagram>] (dot matches
    all), matched at the head of a string. *)
Module Re.

(** [[^>]*>]: what follows the first closing bracket. *)
Fixpoint after_gt (s : string) : option string :=
  match s with
  | EmptyString => None
  | String c s' => if Ascii.eqb c ">" then Some s' else after_gt s'
  end.

(** [(.*?)stop]: the shortest prefix followed by [stop]. *)
Fixpoint lazy_until (stop s : string) : option string :=
  if Py.startswith stop s then Some EmptyString
  else match s with
       | EmptyString => None
       | String c s' => String c <$> lazy_until stop s'
       end.

(** The captured group and the length of the match. *)
Definition match_diagram (s : string) : option (string * nat) :=
  if Py.startswith "<diagram" s then
    body ← after_gt (Py.drop 8 s);
    captured ← lazy_until "</diagram>" body;
    Some (captured,
          String.length s - String.length body + String.length captured + 10)
  else None.

(** [re.findall]: leftmost matches, the scan resuming after each one. *)
Fixpoint findall_from (skip : nat) (s : string) : list string :=
  match s with
  | EmptyString => []
  | String _ s' =>
      match skip with
      | S k => findall_from k s'
      | O =>
          match match_diagram s with
          | Some (captured, len) => captured :: findall_from (len - 1) s'
          | None => findall_from 0 s'
          end
      end
  end.

Definition findall_diagram (s : string) : list string := findall_from 0 s.

End Re.

(** Outcome of a base64 decoder: the bytes, [binascii.Error], or another
    exception. *)
Inductive b64_result : Type :=
  | B64Ok (b : list Byte.byte)
  | B64BinasciiError
  | B64OtherError.

(** The library functions the converter calls; [None] is the call raising
    ([ET.ParseError] for the parser, any exception for the inflaters).
    The parser is taken to raise nothing but [ET.ParseError]: that is so on
    the strings modelled here, of code points below 256, and not on every
    Python string (a lone surrogate makes it raise [UnicodeEncodeError],
    which the fallback search of [_decompress_data] does not catch). *)
Record Libs : Type := mkLibs {
  ET_fromstring : string -> option Element;
  unquote : string -> string;
  b64decode : string -> b64_result;
  urlsafe_b64decode : string -> b64_result;
  decode_utf8_ignore : list Byte.byte -> string;
  decode_utf8_replace : list Byte.byte -> string;
  zlib_decompress : list Byte.byte -> Z -> option (list Byte.byte);
  gzip_decompress : list Byte.byte -> option (list Byte.byte);
  decompressobj_decompress : Z -> list Byte.byte -> option (list Byte.byte)
}.

(** [zlib.MAX_WBITS]. *)
Definition MAX_WBITS : Z := 15.

(** [re.sub(r'[^\x20-\x7E]', '', decoded.decode('latin-1'))]. *)
Definition printable_latin1 (decoded : list Byte.byte) : string :=
  string_of_list_ascii
    (filter (fun c => 32 ≤ nat_of_ascii c ≤ 126) (map ascii_of_byte decoded)).

Section Converter.

Variable L : Libs.
(** [self.strict_mode]. *)
Variable strict_mode : bool.

(** One inflate attempt of the list [decompression_attempts]: the XML text
    when the call succeeds and the text holds the marker. *)
Definition inflate_attempt (decoded : list Byte.byte) (wbits : Z) : option string :=
  let decompressed :=
    if (wbits =? 0)%Z
    then zlib_decompress L decoded (Z.lor MAX_WBITS 32)
    else zlib_decompress L decoded wbits in
  xml_text ← decode_utf8_replace L <$> decompressed;
  if Py.str_in marker xml_text then Some xml_text else None.

(** The loop over [decompression_attempts], which stops at the first page. *)
Fixpoint inflate_attempts (decoded : list Byte.byte) (attempts : list Z)
  : option string :=
  match attempts with
  | [] => None
  | wbits :: rest =>
      match inflate_attempt decoded wbits with
      | Some xml_text => Some xml_text
      | None => inflate_attempts decoded rest
      end
  end.

(** The gzip attempt, made only behind the magic number. *)
Definition gzip_attempt (decoded : list Byte.byte) : option string :=
  match decoded with
  | Byte.x1f :: Byte.x8b :: _ =>
      xml_text ← decode_utf8_replace L <$> gzip_decompress L decoded;
      if Py.str_in marker xml_text then Some xml_text else None
  | _ => None
  end.

Definition pako_attempt (decoded : list Byte.byte) : option string :=
  xml_text ← decode_utf8_replace L
             <$> decompressobj_decompress L (16 + MAX_WBITS) decoded;
  if Py.str_in marker xml_text then Some xml_text else None.

(** The last resort of the relaxed mode. *)
Definition last_resort (decoded : list Byte.byte) : option string :=
  if strict_mode then None
  else
    let cleaned := printable_latin1 decoded in
    if Py.str_in "<" cleaned && Py.str_in ">" cleaned then Some cleaned else None.

(** The two base64 decoders in turn; [None] when the outer handler is
    reached. *)
Definition base64_decode (d : string) : option (list Byte.byte) :=
  match b64decode L d with
  | B64Ok decoded => Some decoded
  | B64BinasciiError =>
      match urlsafe_b64decode L d with
      | B64Ok decoded => Some decoded
      | _ => None
      end
  | B64OtherError => None
  end.

(** The body of the loop over the fragments: the page it appends, if any. *)
Definition decode_fragment (d : string) : result (option string) :=
  let d := Py.strip d in
  if negb (Py.truthy d) then Ret None
  else if Py.startswith "<" d && Py.str_in marker d then Ret (Some d)
  else
    let d_decoded := unquote L d in
    if Py.str_in marker d_decoded then Ret (Some d_decoded)
    else
      let padding_needed := String.length d mod 4 in
      let d :=
        if Nat.eqb padding_needed 0 then d
        else d +:+ Py.repeat "=" (4 - padding_needed) in
      match base64_decode d with
      | None =>
          if strict_mode then Raise DiagramDecompressionError else Ret None
      | Some decoded =>
          let xml_check := decode_utf8_ignore L decoded in
          if Py.startswith "<" xml_check && Py.str_in marker xml_check
          then Ret (Some xml_check)
          else
            let attempts :=
              [ (-15)%Z; 47%Z; 31%Z; 15%Z; 0%Z ] in
            let found :=
              match inflate_attempts decoded attempts with
              | Some p => Some p
              | None =>
                  match gzip_attempt decoded with
                  | Some p => Some p
                  | None =>
                      match pako_attempt decoded with
                      | Some p => Some p
                      | None => last_resort decoded
                      end
                  end
              end in
            match found with
            | Some p => Ret (Some p)
            | None =>
                if strict_mode then Raise DiagramDecompressionError
                else Ret None
            end
      end.

(** The loop over the fragments, appending to [diagram_pages]. *)
Fixpoint decode_fragments (diagram_pages : list string) (diagrams : list string)
  : result (list string) :=
  match diagrams with
  | [] => Ret diagram_pages
  | d :: rest =>
      page ← decode_fragment d;
      decode_fragments (diagram_pages ++ from_option (fun p => [p]) [] page) rest
  end.

(** The fragments of an input without the marker: the wrapper tags found
    by the regular expression or, failing that, the text of the children
    of an [mxfile] root. *)
Definition find_diagrams (xml_data : string) : list string :=
  let diagrams := Re.findall_diagram xml_data in
  match diagrams with
  | _ :: _ => diagrams
  | [] =>
      match ET_fromstring L xml_data with
      | Some root =>
          if String.eqb (el_tag root) "mxfile"
          then map (fun diagram => default "" (el_text diagram))
                   (el_findall root "diagram")
          else []
      | None => []
      end
  end.

(** [_decompress_data], from the page list [diagram_pages] to the page list
    it leaves. *)
Definition _decompress_data (diagram_pages : list string) (xml_data : string)
  : result (list string) :=
  if Py.str_in marker xml_data then Ret (diagram_pages ++ [xml_data])
  else
    match find_diagrams xml_data with
    | (_ :: _) as diagrams => decode_fragments diagram_pages diagrams
    | [] =>
        if Py.str_in marker xml_data then Ret (diagram_pages ++ [xml_data])
        else if strict_mode then Raise DiagramDecompressionError
        else Ret diagram_pages
    end.

(** [list_diagram_pages] resets the page list first; the pages it finds. *)
Definition extract_pages (xml_data : string) : result (list string) :=
  _decompress_data [] xml_data.

(** The prolog [_parse_xml] supplies. *)
Definition xml_prolog : string :=
  "<?xml version=" +:+ dq +:+ "1.0" +:+ dq +:+ " encoding=" +:+ dq
    +:+ "UTF-8" +:+ dq +:+ "?>" +:+ nl.

(** The text [_parse_xml] hands to the parser. *)
Definition normalise_xml (xml_data : string) : string :=
  let xml_data := Py.replace "&nbsp;" "&#160;" xml_data in
  let xml_data :=
    if negb (Py.startswith "<?xml" (Py.strip xml_data))
       && Py.str_in marker xml_data
    then xml_prolog +:+ xml_data else xml_data in
  if Py.startswith "<mxGraphModel" (Py.strip xml_data)
     && negb (Py.startswith "<diagram" (Py.strip xml_data))
  then "<diagram>" +:+ xml_data +:+ "</diagram>" else xml_data.

(** The descent from the parsed root to the graph model. *)
Definition model_root (root : Element) : Element :=
  if String.eqb (el_tag root) "diagram" then
    default root (el_find root "mxGraphModel")
  else if String.eqb (el_tag root) "mxfile" then
    match el_find root "diagram" with
    | Some diagram => default root (el_find diagram "mxGraphModel")
    | None => root
    end
  else root.

(** [_parse_xml]: the root, [None] after a parse error in relaxed mode. *)
Definition _parse_xml (xml_data : string) : result (option Element) :=
  match ET_fromstring L (normalise_xml xml_data) with
  | Some root => Ret (Some (model_root root))
  | None =>
      if strict_mode then Raise DiagramParsingError else Ret None
  end.

(** The handler around the body of [convert]. *)
Definition on_failure (r : result string) : result string :=
  match r with
  | Ret text => Ret text
  | Raise e => if strict_mode then Raise e else Ret EmptyString
  end.

(** Parsing, building and emitting the selected page. *)
Definition convert_page (depth : nat) (xml_diagram direction diagram_type : string)
  : result string :=
  root ← _parse_xml xml_diagram;
  match root with
  | None => Ret EmptyString
  | Some root =>
      let '(node_map, diagram) := _build_diagram_from_root root in
      Ret (_emit_mermaid depth node_map diagram direction diagram_type)
  end.

(** [convert]. *)
Definition convert (depth : nat) (input_data : string) (diagram_index : Z)
    (direction diagram_type : string) : result string :=
  on_failure (
    diagram_pages ← _decompress_data [] input_data;
    match diagram_pages with
    | [] =>
        if strict_mode then Raise DiagramDecompressionError
        else Ret EmptyString
    | _ :: _ =>
        diagram_index ←
          (if bool_decide (diagram_index < 0
                           ∨ diagram_index >= Z.of_nat (length diagram_pages))%Z
           then if strict_mode then Raise IndexError else Ret 0%Z
           else Ret diagram_index);
        match diagram_pages !! Z.to_nat diagram_index with
        | Some xml_diagram =>
            convert_page depth xml_diagram direction diagram_type
        | None => Raise IndexError
        end
    end).

End Converter.

(** ** A library environment for running the converter

    The theorems below hold for every [Libs].  To run the converter on
    concrete documents, [Sample.libs] supplies a reader for a fragment of
    XML (one optional prolog at the very start, elements, quoted attributes
    and character data; no entity references, comments, processing
    instructions or CDATA), percent-decoding of the escapes below [%80], and
    codecs that reject every payload.  It stands in for [xml.etree] on
    the sample documents below only, and is no model of it elsewhere: it
    rejects documents the parser accepts (entity references, comments), does
    not check what the prolog holds, keeps a namespace declaration as a
    plain attribute where the parser would qualify the tags, and turns a
    carriage return in an attribute value into a space of its own. *)

Module Sample.

Definition is_ws (c : ascii) : bool :=
  let n := nat_of_ascii c in
  (n =? 32) || (n =? 9) || (n =? 10) || (n =? 13).

Definition is_name_start (c : ascii) : bool :=
  let n := nat_of_ascii c in
  ((65 <=? n) && (n <=? 90)) || ((97 <=? n) && (n <=? 122))
  || (n =? 95) || (n =? 58).

Definition is_name_char (c : ascii) : bool :=
  let n := nat_of_ascii c in
  is_name_start c || ((48 <=? n) && (n <=? 57)) || (n =? 45) || (n =? 46).

Fixpoint skip_ws (s : string) : string :=
  match s with
  | EmptyString => EmptyString
  | String c s' => if is_ws c then skip_ws s' else s
  end.

(** The longest prefix whose characters satisfy [p], and the rest. *)
Fixpoint span (p : ascii -> bool) (s : string) : string * string :=
  match s with
  | EmptyString => (EmptyString, EmptyString)
  | String c s' =>
      if p c then let '(a, b) := span p s' in (String c a, b)
      else (EmptyString, s)
  end.

Definition take_name (s : string) : option (string * string) :=
  match s with
  | String c _ => if is_name_start c then Some (span is_name_char s) else None
  | EmptyString => None
  end.

(** Attribute-value normalisation: white space becomes a space. *)
Fixpoint normalise_value (s : string) : string :=
  match s with
  | EmptyString => EmptyString
  | String c s' =>
      String (if is_ws c then " "%char else c) (normalise_value s')
  end.

(** The attributes of a start tag, up to its closing [>] or [/>]. *)
Fixpoint attributes (fuel : nat) (s : string)
  : option (list (string * string) * string) :=
  match fuel with
  | O => None
  | S fuel' =>
      let s1 := skip_ws s in
      if Py.startswith ">" s1 || Py.startswith "/>" s1 then Some ([], s1)
      else if String.eqb s1 s then None
      else
        '(name, s2) ← take_name s1;
        match skip_ws s2 with
        | String eq s3 =>
            if Ascii.eqb eq "=" then
              match skip_ws s3 with
              | String q s4 =>
                  if Ascii.eqb q "034" || Ascii.eqb q "'" then
                    let '(value, s5) :=
                      span (fun c => negb (Ascii.eqb c q || Ascii.eqb c "<"
                                           || Ascii.eqb c "&")) s4 in
                    match s5 with
                    | String q' s6 =>
                        if Ascii.eqb q' q then
                          '(rest, s7) ← attributes fuel' s6;
                          if bool_decide (name ∈ map fst rest) then None
                          else Some ((name, normalise_value value) :: rest, s7)
                        else None
                    | EmptyString => None
                    end
                  else None
              | EmptyString => None
              end
            else None
        | EmptyString => None
        end
  end.

Definition is_chardata (c : ascii) : bool :=
  negb (Ascii.eqb c "<" || Ascii.eqb c "&").

(** An element at the head of the text, and the content of an element up
    to its end tag. *)
Fixpoint element (fuel : nat) (s : string) : option (Element * string) :=
  match fuel with
  | O => None
  | S fuel' =>
      match s with
      | String lt s1 =>
          if Ascii.eqb lt "<" then
            '(name, s2) ← take_name s1;
            '(attrs, s3) ← attributes (S (String.length s2)) s2;
            if Py.startswith "/>" s3
            then Some (mkElement name attrs None [], Py.drop 2 s3)
            else
              let '(txt, s4) := span is_chardata (Py.drop 1 s3) in
              '(kids, s5) ← content fuel' s4;
              '(closing, s6) ← take_name (Py.drop 2 s5);
              if String.eqb closing name then
                match skip_ws s6 with
                | String gt s7 =>
                    if Ascii.eqb gt ">" then
                      Some (mkElement name attrs
                              (if Py.truthy txt then Some txt else None) kids,
                            s7)
                    else None
                | EmptyString => None
                end
              else None
          else None
      | EmptyString => None
      end
  end
with content (fuel : nat) (s : string) : option (list Element * string) :=
  match fuel with
  | O => None
  | S fuel' =>
      if Py.startswith "</" s then Some ([], s)
      else
        '(e, s1) ← element fuel' s;
        '(kids, s2) ← content fuel' (snd (span is_chardata s1));
        Some (e :: kids, s2)
  end.

(** What follows the first occurrence of [stop]. *)
Fixpoint after (stop s : string) : option string :=
  if Py.startswith stop s then Some (Py.drop (String.length stop) s)
  else match s with
       | EmptyString => None
       | String _ s' => after stop s'
       end.

Definition fromstring (s : string) : option Element :=
  body ← (if Py.startswith "<?xml " s then after "?>" s else Some s);
  '(root, rest) ← element (S (String.length body)) (skip_ws body);
  if Py.truthy (skip_ws rest) then None else Some root.

Definition hex_digit (c : ascii) : option nat :=
  let n := nat_of_ascii c in
  if (48 <=? n) && (n <=? 57) then Some (n - 48)
  else if (65 <=? n) && (n <=? 70) then Some (n - 55)
  else if (97 <=? n) && (n <=? 102) then Some (n - 87)
  else None.

(** Percent-decoding; an escape of a byte from [%80] up is left as it is. *)
Fixpoint percent_decode (s : string) : string :=
  match s with
  | EmptyString => EmptyString
  | String c s' =>
      let plain := String c (percent_decode s') in
      if Ascii.eqb c "%" then
        match s' with
        | String h (String l rest) =>
            match hex_digit h, hex_digit l with
            | Some a, Some b =>
                if 16 * a + b <? 128
                then String (ascii_of_nat (16 * a + b)) (percent_decode rest)
                else plain
            | _, _ => plain
            end
        | _ => plain
        end
      else plain
  end.

Definition libs : Libs := {|
  ET_fromstring := fromstring;
  unquote := percent_decode;
  b64decode := fun _ => B64BinasciiError;
  urlsafe_b64decode := fun _ => B64BinasciiError;
  decode_utf8_ignore := fun b => string_of_list_ascii (map ascii_of_byte b);
  decode_utf8_replace := fun b => string_of_list_ascii (map ascii_of_byte b);
  zlib_decompress := fun _ _ => None;
  gzip_decompress := fun _ => None;
  decompressobj_decompress := fun _ _ => None
|}.

End Sample.

(** ** Vocabulary of the specification *)

(** The character [c] occurs in [s]. *)
Definition has_char (c : ascii) (s : string) : Prop :=
  c ∈ list_ascii_of_string s.

(** The text [sub] occurs in [s]. *)
Definition occurs (sub s : string) : Prop :=
  ∃ before after, s = before +:+ sub +:+ after.

(** How the specification reads one token of a style string: [key=rest],
    cut at the first [=], binds [key] to [rest]; a non-empty token without
    [=] binds itself to the flag. *)
Definition binds (token key : string) (value : style_value) : Prop :=
  (∃ rest, token = key +:+ "=" +:+ rest ∧ ¬ has_char "=" key
           ∧ value = SStr rest)
  ∨ (token = key ∧ token ≠ EmptyString ∧ ¬ has_char "=" token
     ∧ value = STrue).

(** The four node shapes of the target notation. *)
Inductive shape : Type := Diamond | DoubleCircle | Rounded | Rectangle.





(** The style asks for a dashed line: the bare flag, or [dashed=1]. *)
Definition dashed (style : gmap string style_value) : Prop :=
  style !! "dashed" = Some STrue ∨ style !! "dashed" = Some (SStr "1").

(** The style asks for no arrowhead. *)
Definition headless (style : gmap string style_value) : Prop :=
  style !! "endArrow" = Some (SStr "none").

(** The group [child] is a member of the group [parent]. *)
Definition child_group (gs : list (string * Group)) (parent child : string)
  : Prop :=
  ∃ g n, ODict.get parent gs = Some g ∧ n ∈ group_children g
         ∧ node_id n = Some child ∧ is_Some (ODict.get child gs).

(** The group a child stands for, if its id is a key of the index: the
    test the recursion makes on each child. *)
Definition nested_of (gs : list (string * Group)) (child : Node)
  : option (string * Group) :=
  node_id child ≫= (λ i, (λ g, (i, g)) <$> ODict.get i gs).

(** Every registered group is emitted within [depth] nested calls. *)
Definition all_groups_return (depth : nat) (gs : list (string * Group))
  : Prop :=
  Forall (λ k, is_Some (ODict.get k gs
                        ≫= λ g, _emit_subgraph_recursive depth gs k g 0))
         (ODict.keys gs).

(** No group is reachable from itself through the children lists. *)
Definition groups_acyclic (gs : list (string * Group)) : Prop :=
  ∀ g, ¬ tc (child_group gs) g g.

(** The nodes the flat pass of [_emit_mermaid] formats, and the lines its
    group pass leaves. *)
Definition flat_pass (depth : nat) (diagram : Diagram) : list Node :=
  flat_nodes
    (snd (emit_groups depth (groups diagram) (groups diagram) ([], ∅)))
    (nodes diagram).

Definition group_pass (depth : nat) (diagram : Diagram) : list string :=
  fst (emit_groups depth (groups diagram) (groups diagram) ([], ∅)).

(** The selected page does not parse, and [convert] answers the empty
    text: the reading of the specification under the policy [strict_mode]. *)
Definition empty_text_on_parse_failure (strict_mode : bool) : Prop :=
  ∀ (L : Libs) (depth : nat) (input_data : string) (diagram_index : Z)
    (direction diagram_type : string) (pages : list string) (page : string),
    extract_pages L strict_mode input_data = Ret pages →
    pages !! Z.to_nat diagram_index = Some page →
    (0 <= diagram_index)%Z →
    ET_fromstring L (normalise_xml page) = None →
    convert L strict_mode depth input_data diagram_index direction diagram_type
    = Ret EmptyString.

(** ** Sample documents *)

Module Doc.

Definition cells (body : string) : string :=
  "<mxGraphModel><root><mxCell id='0'/><mxCell id='1' parent='0'/>"
  +:+ body +:+ "</root></mxGraphModel>".

(** One rounded vertex. *)
Definition start : string :=
  cells "<mxCell id='2' value='Start' style='rounded=1' vertex='1' parent='1'/>".

(** Two rectangles and a dashed, labelled edge. *)
Definition dashed_edge : string :=
  cells ("<mxCell id='2' value='A' vertex='1' parent='1'/>"
         +:+ "<mxCell id='3' value='B' vertex='1' parent='1'/>"
         +:+ "<mxCell id='4' value='go' style='dashed=1' edge='1' source='2' target='3' parent='1'/>").

(** The same with a second edge whose target does not exist. *)
Definition dangling_edge : string :=
  cells ("<mxCell id='2' value='A' vertex='1' parent='1'/>"
         +:+ "<mxCell id='3' value='B' vertex='1' parent='1'/>"
         +:+ "<mxCell id='8' edge='1' source='2' target='7' parent='1'/>"
         +:+ "<mxCell id='4' value='go' style='dashed=1' edge='1' source='2' target='3' parent='1'/>").

(** A swimlane and its child. *)
Definition swimlane : string :=
  cells ("<mxCell id='5' value='Lane' style='swimlane' vertex='1' parent='1'/>"
         +:+ "<mxCell id='6' value='Task' vertex='1' parent='5'/>").

(** A swimlane inside a swimlane. *)
Definition nested : string :=
  cells ("<mxCell id='5' value='Outer' style='swimlane' vertex='1' parent='1'/>"
         +:+ "<mxCell id='6' value='Inner' style='swimlane' vertex='1' parent='5'/>"
         +:+ "<mxCell id='7' value='Task' vertex='1' parent='6'/>").

(** A wrapper around an inline graph model. *)
Definition wrapped : string :=
  "<mxfile><diagram name='Page-1'>" +:+ start +:+ "</diagram></mxfile>".

(** A page that holds the marker and is cut short. *)
Definition truncated : string := "<mxGraphModel><root>".

(** Two percent-encoded pages. *)
Definition two_pages : string :=
  "<mxfile><diagram>%3CmxGraphModel%3E%3Croot%3E%3CmxCell id='2' value='One' vertex='1'/%3E%3C/root%3E%3C/mxGraphModel%3E</diagram>"
  +:+ "<diagram>%3CmxGraphModel%3E%3Croot%3E%3CmxCell id='3' value='Two' vertex='1'/%3E%3C/root%3E%3C/mxGraphModel%3E</diagram></mxfile>".

(** The vertex of [start] and the labelled edge of [dashed_edge], as
    built. *)
Definition start_node : Node :=
  mkNode (Some "2") "Start" "rounded=1" (parse_style "rounded=1") []
         (Some "1").
Definition go_edge : Edge :=
  mkEdge (Some "4") (Some "2") (Some "3") "go" "dashed=1"
         (parse_style "dashed=1").

(** The edge of [dangling_edge] whose target does not exist, and the
    model built from that document. *)
Definition lost_edge : Edge :=
  mkEdge (Some "8") (Some "2") (Some "7") EmptyString EmptyString ∅.
Definition dangling_model : gmap (option string) Node * Diagram :=
  _build_diagram_from_root
    (model_root
       (default (mkElement EmptyString [] None [])
                (Sample.fromstring (normalise_xml dangling_edge)))).

(** The group index of [nested], and one whose only group contains
    itself. *)
Definition task : Node :=
  mkNode (Some "7") "Task" EmptyString ∅ [] (Some "6").
Definition inner : Node :=
  mkNode (Some "6") "Inner" "swimlane" (parse_style "swimlane") [] (Some "5").
Definition nested_groups : list (string * Group) :=
  [("5", mkGroup "Outer" [inner]); ("6", mkGroup "Inner" [task])].

Definition outer : Node :=
  mkNode (Some "5") "Outer" "swimlane" (parse_style "swimlane") []
         (Some "1").
Definition nested_diagram : Diagram :=
  mkDiagram [outer; inner; task] [] nested_groups.

(** The model of [swimlane]. *)
Definition lane : Node :=
  mkNode (Some "5") "Lane" "swimlane" (parse_style "swimlane") [] (Some "1").
Definition lane_task : Node :=
  mkNode (Some "6") "Task" EmptyString ∅ [] (Some "5").
Definition swimlane_diagram : Diagram :=
  mkDiagram [lane; lane_task] [] [("5", mkGroup "Lane" [lane_task])].

Definition parsed (page : string) : Element :=
  model_root (default (mkElement EmptyString [] None [])
                      (Sample.fromstring (normalise_xml page))).

Definition loop_node : Node :=
  mkNode (Some "9") "Loop" "group" (parse_style "group") [] (Some "9").
Definition cyclic_groups : list (string * Group) :=
  [("9", mkGroup "Loop" [loop_node])].

(** Two rectangles and an unlabelled edge declared [dashed=0], as the
    source dialect writes a solid line. *)
Definition dashed_zero : string :=
  cells ("<mxCell id='2' value='A' vertex='1' parent='1'/>"
         +:+ "<mxCell id='3' value='B' vertex='1' parent='1'/>"
         +:+ "<mxCell id='4' style='dashed=0' edge='1' source='2' target='3' parent='1'/>").
Definition zero_edge : Edge :=
  mkEdge (Some "4") (Some "2") (Some "3") EmptyString "dashed=0"
         (parse_style "dashed=0").

End Doc.

(** ** The original converter

    [flowforge.py] at the top level is the converter before hardening.  Its
    formatter, emitter and orchestrator are those above; its extractor,
    parser wrapper and builder differ and are embedded here. *)

(** The loops of [_build_diagram_from_root] over the cells of
    [diagram_root], shared by both converters. *)
Definition build_from_cells (diagram_root : Element)
  : gmap (option string) Node * Diagram :=
  let '(ns, es, node_map) :=
    fold_left build_cell (el_findall diagram_root "mxCell") ([], [], ∅) in
  (node_map,
   {| nodes := ns; edges := es;
      groups := fold_left (register_child node_map) ns [] |}).

Module Original.

Section Converter.

Variable L : Libs.
(** [bytes.decode('utf-8')]; [None] is [UnicodeDecodeError]. *)
Variable decode_utf8 : list Byte.byte → option string.
Variable strict_mode : bool.

(** The body of the [try] for one fragment: the page it appends; [None]
    when an exception reaches the handler or the inflated text lacks the
    marker. *)
Definition inflate_fragment (d : string) : option string :=
  match b64decode L d with
  | B64Ok decoded =>
      decompressed ← zlib_decompress L decoded (-15) ≫= decode_utf8;
      if Py.str_in marker decompressed then Some decompressed else None
  | _ => None
  end.

(** The body of the loop over the fragments.  Text without the marker
    raises inside the [try] under the strict policy, so every failure ends
    in the handler: it raises when strict and skips the page otherwise. *)
Definition decode_fragment (d : string) : result (option string) :=
  let d := Py.strip d in
  match inflate_fragment d with
  | Some page => Ret (Some page)
  | None =>
      if strict_mode then Raise DiagramDecompressionError else Ret None
  end.

Fixpoint decode_fragments (diagram_pages : list string) (diagrams : list string)
  : result (list string) :=
  match diagrams with
  | [] => Ret diagram_pages
  | d :: rest =>
      page ← decode_fragment d;
      decode_fragments (diagram_pages ++ from_option (fun p => [p]) [] page) rest
  end.

Definition _decompress_data (diagram_pages : list string) (xml_data : string)
  : result (list string) :=
  match Re.findall_diagram xml_data with
  | (_ :: _) as diagrams => decode_fragments diagram_pages diagrams
  | [] =>
      if Py.str_in marker xml_data then Ret (diagram_pages ++ [xml_data])
      else if strict_mode then Raise DiagramDecompressionError
      else Ret diagram_pages
  end.

Definition _parse_xml (xml_data : string) : result (option Element) :=
  match ET_fromstring L xml_data with
  | Some root => Ret (Some root)
  | None =>
      if strict_mode then Raise DiagramParsingError else Ret None
  end.

(** [_build_diagram_from_root]: without a [root] child it raises when
    strict and returns the empty model otherwise. *)
Definition _build_diagram_from_root (root : Element)
  : result (gmap (option string) Node * Diagram) :=
  match el_find root "root" with
  | None =>
      if strict_mode then Raise DiagramParsingError
      else Ret (∅, {| nodes := []; edges := []; groups := [] |})
  | Some diagram_root => Ret (build_from_cells diagram_root)
  end.

Definition convert_page (depth : nat) (xml_diagram direction diagram_type : string)
  : result string :=
  root ← _parse_xml xml_diagram;
  match root with
  | None => Ret EmptyString
  | Some root =>
      '(node_map, diagram) ← _build_diagram_from_root root;
      Ret (_emit_mermaid depth node_map diagram direction diagram_type)
  end.

Definition convert (depth : nat) (input_data : string) (diagram_index : Z)
    (direction diagram_type : string) : result string :=
  on_failure strict_mode (
    diagram_pages ← _decompress_data [] input_data;
    match diagram_pages with
    | [] =>
        if strict_mode then Raise DiagramDecompressionError
        else Ret EmptyString
    | _ :: _ =>
        diagram_index ←
          (if bool_decide (diagram_index < 0
                           ∨ diagram_index >= Z.of_nat (length diagram_pages))%Z
           then if strict_mode then Raise IndexError else Ret 0%Z
           else Ret diagram_index);
        match diagram_pages !! Z.to_nat diagram_index with
        | Some xml_diagram =>
            convert_page depth xml_diagram direction diagram_type
        | None => Raise IndexError
        end
    end).

End Converter.

End Original.

(** [list_diagram_pages]: the indices of the pages found. *)
Definition list_diagram_pages (L : Libs) (strict_mode : bool)
    (xml_data : string) : result (list nat) :=
  diagram_pages ← _decompress_data L strict_mode [] xml_data;
  Ret (seq 0 (length diagram_pages)).

(** ** Further vocabulary *)

(** The cell [p] is a container: a node of the index whose raw style
    mentions a group or a swimlane. *)
Definition is_container (node_map : gmap (option string) Node) (p : string)
  : Prop :=
  p ≠ EmptyString
  ∧ ∃ pnode, node_map !! Some p = Some pnode
             ∧ (occurs "group" (node_style pnode)
                ∨ occurs "swimlane" (node_style pnode)).

(** The nodes whose parent is [p], in document order. *)
Definition members (ns : list Node) (p : string) : list Node :=
  filter (λ node, node_parent node = Some p) ns.

(** The label a container's group carries. *)
Definition container_label (node_map : gmap (option string) Node) (p : string)
  : string :=
  match node_map !! Some p with
  | Some pnode =>
      if Py.truthy (node_label pnode) then node_label pnode
      else "Group_" +:+ p
  | None => EmptyString
  end.

(** The ids [nodes_emitted] holds after the group pass. *)
Definition nodes_emitted_of (depth : nat) (diagram : Diagram)
  : gset (option string) :=
  snd (emit_groups depth (groups diagram) (groups diagram) ([], ∅)).

(** A page acceptable to the relaxed extractor's last resort. *)
Definition xml_like (page : string) : Prop :=
  has_char "<" page ∧ has_char ">" page.

(** What the extractor accepts as a page under each policy. *)
Definition acceptable (strict_mode : bool) (page : string) : Prop :=
  occurs marker page ∨ (strict_mode = false ∧ xml_like page).

(** What the loop over the cells keeps true of its state. *)
Definition cells_invariant
    (st : list Node * list Edge * gmap (option string) Node) : Prop :=
  Forall (λ node, node_style_dict node = parse_style (node_style node)
                  ∧ node_id node ≠ Some "0" ∧ node_id node ≠ Some "1")
         st.1.1
  ∧ Forall (λ edge, edge_style_dict edge = parse_style (edge_style edge)
                    ∧ edge_id edge ≠ Some "0" ∧ edge_id edge ≠ Some "1")
           st.1.2
  ∧ ∀ k, st.2 !! k = last (filter (λ node, node_id node = k) st.1.1).

(** What the loop over the nodes keeps true of the group index: distinct
    keys, and under each container with members so far the group of those
    members, under no other key anything. *)
Definition groups_invariant (node_map : gmap (option string) Node)
    (ns : list Node) (gs : list (string * Group)) : Prop :=
  NoDup (ODict.keys gs)
  ∧ ∀ p grp,
      ODict.get p gs = Some grp ↔
      is_container node_map p ∧ members ns p ≠ []
      ∧ grp = mkGroup (container_label node_map p) (members ns p).

(** The [dashed] key of the style has a truthy value: the bare flag, or
    any non-empty text. *)
Definition dashed_value (style : gmap string style_value) : Prop :=
  style !! "dashed" = Some STrue
  ∨ ∃ v, style !! "dashed" = Some (SStr v) ∧ v ≠ EmptyString.

(** * Verification *)

(** ** Facts about strings *)

#[local] Arguments String.append !_ _ / : simpl nomatch.

Section StringFacts.

Lemma startswith_spec (p s : string) :
  Py.startswith p s = true ↔ ∃ r, s = p +:+ r.
Proof.
  revert s. induction p as [|a p IH]; intros s; simpl.
  - split; [intros _; by exists s | done].
  - destruct s as [|b s].
    + split; [done | intros [r Hr]; discriminate].
    + destruct (Ascii.eqb_spec a b) as [->|Hne].
      * rewrite IH. split; intros [r Hr]; exists r; congruence.
      * split; [done | intros [r Hr]; congruence].
Qed.

Lemma str_in_occurs (sub s : string) :
  Py.str_in sub s = true ↔ occurs sub s.
Proof.
  split.
  - induction s as [|c s IH]; simpl.
    + destruct (Py.startswith sub EmptyString) eqn:E; [|done].
      intros _. apply startswith_spec in E as [r Hr].
      exists EmptyString, r. done.
    + destruct (Py.startswith sub (String c s)) eqn:E.
      * intros _. apply startswith_spec in E as [r Hr].
        exists EmptyString, r. done.
      * intros H. destruct (IH H) as (b & a & ->).
        exists (String c b), a. done.
  - intros (b & a & ->). induction b as [|c b IH]; simpl.
    + assert (Py.startswith sub (sub +:+ a) = true) as E
        by (apply startswith_spec; eauto).
      destruct sub, a; simpl in *; by rewrite ?E.
    + by destruct (Py.startswith sub (String c (b +:+ sub +:+ a))).
Qed.

Lemma str_in_char (c : ascii) (s : string) :
  Py.str_in (String c EmptyString) s = true ↔ has_char c s.
Proof.
  unfold has_char. induction s as [|a s IH]; simpl.
  - split; [done | by intros ?%elem_of_nil].
  - destruct (Ascii.eqb_spec c a) as [->|Hne].
    + split; [intros _; left | done].
    + rewrite IH, elem_of_cons. split; [by right | by intros [?|?]].
Qed.

Lemma has_char_append (c : ascii) (a b : string) :
  has_char c (a +:+ b) ↔ has_char c a ∨ has_char c b.
Proof.
  unfold has_char. induction a as [|x a IH]; simpl.
  - rewrite elem_of_nil. tauto.
  - rewrite !elem_of_cons, IH. tauto.
Qed.

Lemma has_char_cons (c x : ascii) (s : string) :
  has_char c (String x s) ↔ c = x ∨ has_char c s.
Proof. unfold has_char. simpl. by rewrite elem_of_cons. Qed.

Lemma has_char_empty (c : ascii) : ¬ has_char c EmptyString.
Proof. unfold has_char. simpl. by intros ?%elem_of_nil. Qed.

(** Cutting at the first occurrence of a character is unambiguous. *)
Lemma first_cut_unique (c : ascii) (k k' r r' : string) :
  k +:+ String c r = k' +:+ String c r' →
  ¬ has_char c k → ¬ has_char c k' → k = k' ∧ r = r'.
Proof.
  revert k'. induction k as [|x k IH]; intros [|x' k']; simpl; intros E Hk Hk'.
  - by inversion E.
  - inversion E; subst. exfalso. apply Hk'. apply has_char_cons. by left.
  - inversion E; subst. exfalso. apply Hk. apply has_char_cons. by left.
  - inversion E; subst.
    destruct (IH k') as [-> ->]; try done.
    + intros H. apply Hk. apply has_char_cons. by right.
    + intros H. apply Hk'. apply has_char_cons. by right.
Qed.

Lemma split1_cut (sep : ascii) (s : string) :
  has_char sep s →
  ∃ k r, Py.split1 sep s = [k; r] ∧ s = k +:+ String sep r ∧ ¬ has_char sep k.
Proof.
  induction s as [|c s IH]; intros H.
  - by apply has_char_empty in H.
  - simpl. destruct (Ascii.eqb_spec c sep) as [->|Hne].
    + exists EmptyString, s. split_and!; [done | done | apply has_char_empty].
    + apply has_char_cons in H as [->|H]; [done|].
      destruct (IH H) as (k & r & -> & -> & Hk).
      exists (String c k), r. split_and!; [done | done |].
      intros [->|?]%has_char_cons; done.
Qed.

Lemma split_nonempty (sep : ascii) (s : string) : Py.split sep s ≠ [].
Proof.
  destruct s as [|c s]; simpl; [done|].
  destruct (Ascii.eqb c sep); [done|]. by destruct (Py.split sep s).
Qed.

Lemma join_cons (sep p : string) (ps : list string) :
  ps ≠ [] → Py.join sep (p :: ps) = p +:+ sep +:+ Py.join sep ps.
Proof. by destruct ps. Qed.

Lemma join_push (sep : string) (c : ascii) (t : string) (ts : list string) :
  Py.join sep (String c t :: ts) = String c (Py.join sep (t :: ts)).
Proof. by destruct ts. Qed.

Lemma join_split (sep : ascii) (s : string) :
  Py.join (String sep EmptyString) (Py.split sep s) = s.
Proof.
  induction s as [|c s IH]; simpl; [done|].
  destruct (Ascii.eqb_spec c sep) as [->|Hne].
  - rewrite join_cons by apply split_nonempty. simpl. by rewrite IH.
  - pose proof (split_nonempty sep s) as Hn.
    destruct (Py.split sep s) as [|t ts]; [done|].
    rewrite join_push. by rewrite IH.
Qed.

Lemma split_no_sep (sep : ascii) (s : string) :
  Forall (λ token, ¬ has_char sep token) (Py.split sep s).
Proof.
  induction s as [|c s IH]; simpl.
  - constructor; [apply has_char_empty | constructor].
  - destruct (Ascii.eqb_spec c sep) as [->|Hne].
    + constructor; [apply has_char_empty | done].
    + destruct (Py.split sep s) as [|t ts]; simpl.
      * constructor; [|constructor].
        intros [->|H]%has_char_cons; [done | by apply has_char_empty in H].
      * inversion IH; subst. constructor; [|done].
        intros [->|H]%has_char_cons; done.
Qed.

End StringFacts.

(** ** The style microparser *)

Section ParseStyle.

Implicit Types (d : gmap string style_value) (token key : string).

Lemma binds_functional token key v v' :
  binds token key v → binds token key v' → v = v'.
Proof.
  intros [(r & -> & Hk & ->)|(-> & Hne & Hno & ->)]
         [(r' & E & Hk' & ->)|(E & _ & Hno' & ->)]; try done.
  - by destruct (first_cut_unique _ _ _ _ _ E Hk Hk') as [_ ->].
  - exfalso. apply Hno'. apply has_char_append. right.
    apply has_char_cons. by left.
  - exfalso. apply Hno. rewrite E. apply has_char_append. right.
    apply has_char_cons. by left.
Qed.

(** One token either binds the key, and the step stores that binding, or
    does not, and the step leaves the key alone. *)
Lemma parse_style_token_lookup d token key :
  (∃ v, binds token key v ∧ parse_style_token d token !! key = Some v)
  ∨ ((∀ v, ¬ binds token key v) ∧ parse_style_token d token !! key = d !! key).
Proof.
  unfold parse_style_token.
  destruct (Py.str_in "=" token) eqn:Hin.
  - apply str_in_char in Hin.
    destruct (split1_cut _ _ Hin) as (k & r & -> & E & Hk).
    destruct (decide (k = key)) as [->|Hne].
    + left. exists (SStr r). split; [|apply lookup_insert_eq].
      left. exists r. done.
    + right. split; [|by apply lookup_insert_ne].
      intros v [(r' & E' & Hk' & _)|(E' & _ & Hno & _)].
      * rewrite E in E'.
        by destruct (first_cut_unique _ _ _ _ _ E' Hk Hk') as [? _].
      * by apply Hno.
  - assert (¬ has_char "=" token) as Hno.
    { intros H%str_in_char. congruence. }
    destruct token as [|c t]; simpl.
    + right. split; [|done].
      intros v [(r & E & _)|(_ & ? & _)]; [|done].
      by destruct key.
    + destruct (decide (String c t = key)) as [<-|Hne].
      * left. exists STrue. split; [|apply lookup_insert_eq]. by right.
      * right. split; [|by apply lookup_insert_ne].
        intros v [(r & E & _)|(E & _)]; [|done].
        apply Hno. rewrite E. apply has_char_append. right.
        apply has_char_cons. by left.
Qed.

Lemma fold_parse_style_lookup (tokens : list string) d key v :
  fold_left parse_style_token tokens d !! key = Some v ↔
  (∃ before token after,
     tokens = before ++ token :: after ∧ binds token key v
     ∧ ∀ t v', t ∈ after → ¬ binds t key v')
  ∨ (d !! key = Some v ∧ ∀ t v', t ∈ tokens → ¬ binds t key v').
Proof.
  revert d. induction tokens as [|t ts IH]; intros d; simpl.
  - split.
    + intros H. right. split; [done|]. by intros ?? ?%elem_of_nil.
    + intros [(b & t & a & E & _)|[H _]]; [by destruct b | done].
  - rewrite IH. split.
    + intros [(b & t' & a & -> & Hb & Ha)|[Hd Hts]].
      * left. exists (t :: b), t', a. done.
      * destruct (parse_style_token_lookup d t key)
          as [(w & Hw & E)|(Hno & E)]; rewrite E in Hd.
        -- left. exists [], t, ts. simplify_eq. done.
        -- right. split; [done|].
           intros t' v' [->|?]%elem_of_cons; [apply Hno | by apply Hts].
    + intros [(b & t' & a & E & Hb & Ha)|[Hd Hts]].
      * destruct b as [|t0 b]; simplify_eq/=.
        -- right. split; [|done].
           destruct (parse_style_token_lookup d t' key)
             as [(w & Hw & ->)|(Hno & _)].
           ++ f_equal. by eapply binds_functional.
           ++ by destruct (Hno v).
        -- left. exists b, t', a. done.
      * right. split.
        -- destruct (parse_style_token_lookup d t key)
             as [(w & Hw & _)|(_ & ->)]; [|done].
           destruct (Hts t w); [by left | done].
        -- intros t' v' ?. apply Hts. by right.
Qed.

End ParseStyle.

(** C9. [parse_style] splits its input on [;] (the tokens, joined by [;],
    give the input back, and none holds a [;]); the resulting map binds a
    key to a value exactly when some token binds them as the specification
    reads it (a token with [=] is cut at its first [=] only, the key is
    the part before it and the value the whole remainder; a non-empty
    token without [=] is a key bound to the flag) and no later token binds
    that key again; the empty input gives the empty map.  Being a function
    defined on every string, it never fails. *)
Theorem parse_style_characterised :
  parse_style EmptyString = ∅ ∧
  ∀ style_str : string,
    let tokens := Py.split ";" style_str in
    Py.join ";" tokens = style_str ∧
    Forall (λ token, ¬ has_char ";" token) tokens ∧
    ∀ key value,
      parse_style style_str !! key = Some value ↔
      ∃ before token after,
        tokens = before ++ token :: after ∧ binds token key value
        ∧ ∀ t v, t ∈ after → ¬ binds t key v.
Proof.
  split; [done|]. intros style_str tokens.
  split; [apply join_split|]. split; [apply split_no_sep|].
  intros key value. unfold parse_style.
  destruct style_str as [|c s].
  - simpl. rewrite lookup_empty. split; [done|].
    intros (b & t & a & E & Hb & _). subst tokens. simpl in E.
    destruct b as [|? b]; simplify_eq/=; [|by destruct b].
    destruct Hb as [(r & E & _)|(_ & ? & _)]; [by destruct key | done].
  - change (Py.truthy (String c s)) with true. cbv iota.
    rewrite fold_parse_style_lookup. split.
    + intros [H|[H _]]; [done | by rewrite lookup_empty in H].
    + intros H. by left.
Qed.

(** ** Extraction and orchestration *)

(** C1. An input in whose raw text the marker occurs is extracted as
    exactly one page, the input itself, under either policy and whatever
    the libraries would make of the wrapper fragments in it: the page list
    grows by the input alone. *)
Theorem marker_short_circuit (L : Libs) (strict_mode : bool)
    (xml_data : string) :
  occurs marker xml_data →
  extract_pages L strict_mode xml_data = Ret [xml_data]
  ∧ ∀ diagram_pages,
      _decompress_data L strict_mode diagram_pages xml_data
      = Ret (diagram_pages ++ [xml_data]).
Proof.
  intros H%str_in_occurs. unfold extract_pages, _decompress_data.
  rewrite H. done.
Qed.

Lemma marker_short_circuit_witness :
  occurs marker Doc.wrapped
  ∧ (extract_pages Sample.libs true Doc.wrapped = Ret [Doc.wrapped]
     ∧ ∀ diagram_pages,
         _decompress_data Sample.libs true diagram_pages Doc.wrapped
         = Ret (diagram_pages ++ [Doc.wrapped]))
  ∧ (extract_pages Sample.libs false Doc.wrapped = Ret [Doc.wrapped]
     ∧ ∀ diagram_pages,
         _decompress_data Sample.libs false diagram_pages Doc.wrapped
         = Ret (diagram_pages ++ [Doc.wrapped])).
Proof.
  assert (occurs marker Doc.wrapped) as H
    by (apply str_in_occurs; vm_compute; reflexivity).
  split; [exact H|].
  split; apply marker_short_circuit; exact H.
Defined.

(** C7. Against a document with at least one page, a page index below
    zero or not below the page count makes [convert] raise [IndexError]
    under the strict policy, and convert page 0 under the relaxed one. *)
Theorem page_index_out_of_range (L : Libs) (strict_mode : bool) (depth : nat)
    (input_data : string) (diagram_index : Z)
    (direction diagram_type : string) (pages : list string) :
  extract_pages L strict_mode input_data = Ret pages →
  pages ≠ [] →
  (diagram_index < 0 ∨ Z.of_nat (length pages) <= diagram_index)%Z →
  if strict_mode then
    convert L true depth input_data diagram_index direction diagram_type
    = Raise IndexError
  else
    convert L false depth input_data diagram_index direction diagram_type
    = convert L false depth input_data 0 direction diagram_type
    ∧ ∃ page0,
        pages !! 0 = Some page0
        ∧ convert L false depth input_data diagram_index direction diagram_type
          = on_failure false
              (convert_page L false depth page0 direction diagram_type).
Proof.
  unfold extract_pages. intros Hx Hne Hidx.
  destruct pages as [|page0 pages]; [done|].
  destruct strict_mode; unfold convert; rewrite Hx; simpl.
  - rewrite bool_decide_eq_true_2; [done|]. simpl in Hidx. lia.
  - rewrite bool_decide_eq_true_2 by (simpl in Hidx; lia).
    split; [done|]. by exists page0.
Qed.

Lemma page_index_out_of_range_witness :
  (extract_pages Sample.libs true Doc.start = Ret [Doc.start]
   ∧ extract_pages Sample.libs false Doc.start = Ret [Doc.start]
   ∧ [Doc.start] ≠ []
   ∧ (5 < 0 ∨ Z.of_nat (length [Doc.start]) <= 5)%Z)
  ∧ convert Sample.libs true 8 Doc.start 5 "TD" "flowchart" = Raise IndexError
  ∧ (convert Sample.libs false 8 Doc.start 5 "TD" "flowchart"
     = convert Sample.libs false 8 Doc.start 0 "TD" "flowchart"
     ∧ ∃ page0,
         [Doc.start] !! 0 = Some page0
         ∧ convert Sample.libs false 8 Doc.start 5 "TD" "flowchart"
           = on_failure false
               (convert_page Sample.libs false 8 page0 "TD" "flowchart")).
Proof.
  assert (extract_pages Sample.libs true Doc.start = Ret [Doc.start]) as Ht
    by (vm_compute; reflexivity).
  assert (extract_pages Sample.libs false Doc.start = Ret [Doc.start]) as Hf
    by (vm_compute; reflexivity).
  assert ([Doc.start] ≠ []) as Hne by discriminate.
  assert (5 < 0 ∨ Z.of_nat (length [Doc.start]) <= 5)%Z as Hidx
    by (right; simpl; lia).
  split; [done|]. split.
  - exact (page_index_out_of_range Sample.libs true 8 Doc.start 5
             "TD" "flowchart" [Doc.start] Ht Hne Hidx).
  - exact (page_index_out_of_range Sample.libs false 8 Doc.start 5
             "TD" "flowchart" [Doc.start] Hf Hne Hidx).
Defined.

(** Scenario E and its neighbours, run: index 5 against one page, and
    indices 2 and -1 against two pages. *)
Example page_index_scenarios :
  convert Sample.libs true 8 Doc.start 5 "TD" "flowchart" = Raise IndexError
  ∧ convert Sample.libs false 8 Doc.start 5 "TD" "flowchart"
    = Ret ("flowchart TD" +:+ nl +:+ "N2(" +:+ dq +:+ "Start" +:+ dq +:+ ")")
  ∧ convert Sample.libs true 8 Doc.two_pages 2 "TD" "flowchart"
    = Raise IndexError
  ∧ convert Sample.libs true 8 Doc.two_pages (-1) "TD" "flowchart"
    = Raise IndexError
  ∧ convert Sample.libs false 8 Doc.two_pages (-1) "TD" "flowchart"
    = Ret ("flowchart TD" +:+ nl +:+ "N2[" +:+ dq +:+ "One" +:+ dq +:+ "]")
  ∧ convert Sample.libs true 8 Doc.two_pages 1 "TD" "flowchart"
    = Ret ("flowchart TD" +:+ nl +:+ "N3[" +:+ dq +:+ "Two" +:+ dq +:+ "]").
Proof. vm_compute. repeat split. Qed.



(** In strict mode a page that does not parse makes [convert] raise: the
    reading of the specification that promises the empty text under both
    policies fails on the truncated page. *)
Lemma strict_parse_failure_raises :
  extract_pages Sample.libs true Doc.truncated = Ret [Doc.truncated]
  ∧ ET_fromstring Sample.libs (normalise_xml Doc.truncated) = None
  ∧ convert Sample.libs true 8 Doc.truncated 0 "TD" "flowchart"
    = Raise DiagramParsingError
  ∧ ¬ empty_text_on_parse_failure true.
Proof.
  assert (extract_pages Sample.libs true Doc.truncated = Ret [Doc.truncated])
    as Hx by (vm_compute; reflexivity).
  assert (ET_fromstring Sample.libs (normalise_xml Doc.truncated) = None)
    as He by (vm_compute; reflexivity).
  assert (convert Sample.libs true 8 Doc.truncated 0 "TD" "flowchart"
          = Raise DiagramParsingError) as Hc by (vm_compute; reflexivity).
  split_and!; try done.
  intros H.
  pose proof (H Sample.libs 8 Doc.truncated 0%Z "TD" "flowchart"
                [Doc.truncated] Doc.truncated Hx eq_refl (Z.le_refl 0) He) as E.
  rewrite Hc in E. discriminate E.
Qed.

(** C8, amended. When the selected page yields no root (the parser
    rejects its normalised text), [convert] returns the empty text under
    the relaxed policy and raises [DiagramParsingError] under the strict
    one. *)
Theorem parse_failure_by_policy (L : Libs) (strict_mode : bool) (depth : nat)
    (input_data : string) (diagram_index : Z)
    (direction diagram_type : string) (pages : list string) (page : string) :
  extract_pages L strict_mode input_data = Ret pages →
  pages !! Z.to_nat diagram_index = Some page →
  (0 <= diagram_index)%Z →
  ET_fromstring L (normalise_xml page) = None →
  convert L strict_mode depth input_data diagram_index direction diagram_type
  = if strict_mode then Raise DiagramParsingError else Ret EmptyString.
Proof.
  unfold extract_pages. intros Hx Hpage Hidx Hparse.
  unfold convert. rewrite Hx. simpl.
  destruct pages as [|page0 pages]; [done|].
  assert (Z.to_nat diagram_index < length (page0 :: pages))%nat as Hlt
    by (eapply lookup_lt_Some; eassumption).
  rewrite bool_decide_eq_false_2 by lia.
  simpl. rewrite Hpage. unfold convert_page, _parse_xml. rewrite Hparse.
  by destruct strict_mode.
Qed.

Lemma parse_failure_by_policy_witness :
  (extract_pages Sample.libs true Doc.truncated = Ret [Doc.truncated]
   ∧ extract_pages Sample.libs false Doc.truncated = Ret [Doc.truncated]
   ∧ [Doc.truncated] !! Z.to_nat 0 = Some Doc.truncated
   ∧ (0 <= 0)%Z
   ∧ ET_fromstring Sample.libs (normalise_xml Doc.truncated) = None)
  ∧ convert Sample.libs true 8 Doc.truncated 0 "TD" "flowchart"
    = Raise DiagramParsingError
  ∧ convert Sample.libs false 8 Doc.truncated 0 "TD" "flowchart"
    = Ret EmptyString.
Proof.
  assert (extract_pages Sample.libs true Doc.truncated = Ret [Doc.truncated])
    as Ht by (vm_compute; reflexivity).
  assert (extract_pages Sample.libs false Doc.truncated = Ret [Doc.truncated])
    as Hf by (vm_compute; reflexivity).
  assert ([Doc.truncated] !! Z.to_nat 0 = Some Doc.truncated) as Hp
    by reflexivity.
  assert (0 <= 0)%Z as H0 by lia.
  assert (ET_fromstring Sample.libs (normalise_xml Doc.truncated) = None)
    as He by (vm_compute; reflexivity).
  split; [done|]. split.
  - exact (parse_failure_by_policy Sample.libs true 8 Doc.truncated 0
             "TD" "flowchart" [Doc.truncated] Doc.truncated Ht Hp H0 He).
  - exact (parse_failure_by_policy Sample.libs false 8 Doc.truncated 0
             "TD" "flowchart" [Doc.truncated] Doc.truncated Hf Hp H0 He).
Defined.

(** ** Node and edge lines *)

Section Formatting.

Implicit Types (style : gmap string style_value) (node : Node) (edge : Edge).





Lemma style_is_spec style (k v : string) :
  style_is style k v = true ↔ style !! k = Some (SStr v).
Proof.
  unfold style_is. destruct (style !! k) as [[s|]|]; try done.
  rewrite String.eqb_eq. split; congruence.
Qed.


End Formatting.



Section EdgeFormatting.

Implicit Types (style : gmap string style_value) (edge : Edge).

Lemma edge_arrow_solid style :
  style !! "dashed" = None →
  edge_arrow style = if style_is style "endArrow" "none" then "--" else "-->".
Proof.
  intros E.
  assert (style_truthy style "dashed" = false) as E0
    by (unfold style_truthy; by rewrite E).
  assert (style_is style "dashed" "1" = false) as E1
    by (unfold style_is; by rewrite E).
  unfold edge_arrow. rewrite E0, E1. simpl.
  by destruct (style_is style "endArrow" "none").
Qed.

Lemma edge_arrow_dotted style :
  dashed style →
  edge_arrow style = if style_is style "endArrow" "none" then "-.-" else "-.->".
Proof.
  intros H.
  assert (style_truthy style "dashed" = true) as E
    by (unfold style_truthy; by destruct H as [-> | ->]).
  unfold edge_arrow. rewrite E. simpl.
  by destruct (style_is style "endArrow" "none").
Qed.

Lemma headless_spec style :
  style_is style "endArrow" "none" = true ↔ headless style.
Proof. apply style_is_spec. Qed.

End EdgeFormatting.

(** X22. Where the formatter and the specification agree: an edge line,
    whenever one is emitted, joins N<src> and N<tgt>
    by a connector that is the solid arrow when the parsed style has no
    [dashed] key, the dotted arrow when it has the bare [dashed] flag or
    [dashed=1], and in either case loses its head under [endArrow=none];
    a non-empty trimmed label is written inline before the connector.  An
    edge with both endpoints is always given a line, and the dashed edge
    labelled go from 2 to 3 converts as the specification shows. *)
Theorem format_edge_connector :
  (∀ edge line,
     _format_edge edge = Some line →
     ∃ s t arrow,
       edge_source edge = Some s ∧ edge_target edge = Some t
       ∧ line = (if decide (Py.strip (edge_label edge) = EmptyString)
                 then "N" +:+ s +:+ " " +:+ arrow +:+ " N" +:+ t
                 else "N" +:+ s +:+ " -- " +:+ dq
                      +:+ Py.strip (edge_label edge) +:+ dq
                      +:+ " " +:+ arrow +:+ " N" +:+ t)
       ∧ (edge_style_dict edge !! "dashed" = None →
          ¬ headless (edge_style_dict edge) → arrow = "-->")
       ∧ (dashed (edge_style_dict edge) →
          ¬ headless (edge_style_dict edge) → arrow = "-.->")
       ∧ (edge_style_dict edge !! "dashed" = None →
          headless (edge_style_dict edge) → arrow = "--")
       ∧ (dashed (edge_style_dict edge) →
          headless (edge_style_dict edge) → arrow = "-.-"))
  ∧ (∀ edge s t,
       edge_source edge = Some s → edge_target edge = Some t →
       is_Some (_format_edge edge))
  ∧ (∀ strict_mode,
       convert Sample.libs strict_mode 8 Doc.dashed_edge 0 "TD" "flowchart"
       = Ret ("flowchart TD" +:+ nl
              +:+ "N2[" +:+ dq +:+ "A" +:+ dq +:+ "]" +:+ nl
              +:+ "N3[" +:+ dq +:+ "B" +:+ dq +:+ "]" +:+ nl
              +:+ "N2 -- " +:+ dq +:+ "go" +:+ dq +:+ " -.-> N3")).
Proof.
  split_and!.
  - intros edge line. unfold _format_edge.
    destruct (edge_source edge) as [s|]; [|done].
    destruct (edge_target edge) as [t|]; [|done].
    intros H. exists s, t, (edge_arrow (edge_style_dict edge)).
    split_and!; try done.
    + destruct (Py.strip (edge_label edge)); simpl in H; by simplify_eq.
    + intros E Hh. rewrite edge_arrow_solid by done.
      destruct (style_is _ "endArrow" "none") eqn:E'; [|done].
      by apply headless_spec in E'.
    + intros E Hh. rewrite edge_arrow_dotted by done.
      destruct (style_is _ "endArrow" "none") eqn:E'; [|done].
      by apply headless_spec in E'.
    + intros E Hh%headless_spec. by rewrite edge_arrow_solid, Hh.
    + intros E Hh%headless_spec. by rewrite edge_arrow_dotted, Hh.
  - intros edge s t Hs Ht. unfold _format_edge. rewrite Hs, Ht.
    by destruct (Py.truthy _).
  - intros []; vm_compute; reflexivity.
Qed.

Lemma format_edge_connector_witness :
  _format_edge Doc.go_edge
  = Some ("N2 -- " +:+ dq +:+ "go" +:+ dq +:+ " -.-> N3")
  ∧ dashed (edge_style_dict Doc.go_edge)
  ∧ ¬ headless (edge_style_dict Doc.go_edge)
  ∧ ∃ s t arrow,
      edge_source Doc.go_edge = Some s ∧ edge_target Doc.go_edge = Some t
      ∧ "N2 -- " +:+ dq +:+ "go" +:+ dq +:+ " -.-> N3"
        = "N" +:+ s +:+ " -- " +:+ dq +:+ "go" +:+ dq
          +:+ " " +:+ arrow +:+ " N" +:+ t
      ∧ arrow = "-.->".
Proof.
  assert (_format_edge Doc.go_edge
          = Some ("N2 -- " +:+ dq +:+ "go" +:+ dq +:+ " -.-> N3")) as H
    by (vm_compute; reflexivity).
  assert (dashed (edge_style_dict Doc.go_edge)) as Hd
    by (right; vm_compute; reflexivity).
  assert (¬ headless (edge_style_dict Doc.go_edge)) as Hh
    by (unfold headless; vm_compute; discriminate).
  split_and!; [exact H | exact Hd | exact Hh |].
  destruct (proj1 format_edge_connector Doc.go_edge _ H)
    as (s & t & arrow & Hs & Ht & Hline & _ & Hdot & _).
  exists s, t, arrow. split_and!; [exact Hs | exact Ht | exact Hline |].
  exact (Hdot Hd Hh).
Defined.

(** C3, at an edge declared [dashed=0]. The style asks for no dashed
    line, neither by the bare flag nor by [dashed=1], and has no
    [endArrow]; the formatter tests the value for truth, any non-empty
    text passes, and the edge is drawn with the dotted arrow where the
    default is the solid one. *)
Theorem dashed_zero_drawn_dotted :
  edge_style_dict Doc.zero_edge !! "dashed" = Some (SStr "0")
  ∧ edge_style_dict Doc.zero_edge !! "endArrow" = None
  ∧ (_build_diagram_from_root (Doc.parsed Doc.dashed_zero)).2
    = mkDiagram (nodes (_build_diagram_from_root
                          (Doc.parsed Doc.dashed_edge)).2)
                [Doc.zero_edge] []
  ∧ edge_arrow (edge_style_dict Doc.zero_edge) = "-.->"
  ∧ _format_edge Doc.zero_edge = Some "N2 -.-> N3"
  ∧ ∀ strict_mode,
      convert Sample.libs strict_mode 8 Doc.dashed_zero 0 "TD" "flowchart"
      = Ret ("flowchart TD" +:+ nl
             +:+ "N2[" +:+ dq +:+ "A" +:+ dq +:+ "]" +:+ nl
             +:+ "N3[" +:+ dq +:+ "B" +:+ dq +:+ "]" +:+ nl
             +:+ "N2 -.-> N3").
Proof.
  split_and!; try (vm_compute; reflexivity).
  all: intros []; vm_compute; reflexivity.
Qed.

(** ** Emission *)

Section EdgePass.

Lemma unresolved_edge_skipped (node_map : gmap (option string) Node)
    (edge : Edge) :
  node_map !! edge_source edge = None ∨ node_map !! edge_target edge = None
  ∨ edge_source edge = None ∨ edge_target edge = None →
  (if resolvable node_map edge then _format_edge edge else None) = None.
Proof.
  intros H. unfold resolvable, _format_edge.
  destruct H as [H|[H|[H|H]]].
  - by rewrite (bool_decide_eq_true_2 _ H).
  - by rewrite (bool_decide_eq_true_2 _ H), orb_true_r.
  - rewrite H. by destruct (negb _).
  - rewrite H. destruct (negb _); [|done]. by destruct (edge_source edge).
Qed.

End EdgePass.

(** C4. An edge whose source or target is not a key of the node index,
    or is missing altogether, leaves no trace in the output: emission
    gives the text it gives without that edge.  Emission takes no policy,
    and a page whose model holds such an edge converts, under either
    policy, to that text without raising. *)
Theorem unresolved_edge_omitted (L : Libs) (strict_mode : bool) (depth : nat)
    (node_map : gmap (option string) Node) (ns : list Node)
    (es1 es2 : list Edge) (edge : Edge) (gs : list (string * Group))
    (direction diagram_type : string) :
  node_map !! edge_source edge = None ∨ node_map !! edge_target edge = None
  ∨ edge_source edge = None ∨ edge_target edge = None →
  _emit_mermaid depth node_map (mkDiagram ns (es1 ++ edge :: es2) gs)
                direction diagram_type
  = _emit_mermaid depth node_map (mkDiagram ns (es1 ++ es2) gs)
                  direction diagram_type
  ∧ ∀ page root,
      ET_fromstring L (normalise_xml page) = Some root →
      _build_diagram_from_root (model_root root)
      = (node_map, mkDiagram ns (es1 ++ edge :: es2) gs) →
      convert_page L strict_mode depth page direction diagram_type
      = Ret (_emit_mermaid depth node_map (mkDiagram ns (es1 ++ es2) gs)
                           direction diagram_type).
Proof.
  intros H.
  assert (_emit_mermaid depth node_map (mkDiagram ns (es1 ++ edge :: es2) gs)
                        direction diagram_type
          = _emit_mermaid depth node_map (mkDiagram ns (es1 ++ es2) gs)
                          direction diagram_type) as Hemit.
  { unfold _emit_mermaid. simpl.
    destruct (emit_groups depth gs gs ([], ∅)) as [group_lines nodes_emitted].
    rewrite !omap_app. simpl.
    by rewrite (unresolved_edge_skipped node_map edge H). }
  split; [exact Hemit|].
  intros page root Hparse Hbuild.
  unfold convert_page, _parse_xml. rewrite Hparse. simpl.
  rewrite Hbuild. by rewrite Hemit.
Qed.

Lemma unresolved_edge_omitted_witness :
  Doc.dangling_model.1 !! edge_target Doc.lost_edge = None
  ∧ _emit_mermaid 8 Doc.dangling_model.1
      (mkDiagram (nodes Doc.dangling_model.2)
                 ([] ++ Doc.lost_edge :: [Doc.go_edge]) []) "TD" "flowchart"
    = _emit_mermaid 8 Doc.dangling_model.1
        (mkDiagram (nodes Doc.dangling_model.2) ([] ++ [Doc.go_edge]) [])
        "TD" "flowchart"
  ∧ convert_page Sample.libs true 8 Doc.dangling_edge "TD" "flowchart"
    = Ret ("flowchart TD" +:+ nl
           +:+ "N2[" +:+ dq +:+ "A" +:+ dq +:+ "]" +:+ nl
           +:+ "N3[" +:+ dq +:+ "B" +:+ dq +:+ "]" +:+ nl
           +:+ "N2 -- " +:+ dq +:+ "go" +:+ dq +:+ " -.-> N3").
Proof.
  assert (Doc.dangling_model.1 !! edge_target Doc.lost_edge = None) as H
    by (vm_compute; reflexivity).
  split; [exact H|].
  destruct (unresolved_edge_omitted Sample.libs true 8 Doc.dangling_model.1
              (nodes Doc.dangling_model.2) [] [Doc.go_edge] Doc.lost_edge []
              "TD" "flowchart" (or_intror (or_introl H))) as [Hemit Hpage].
  split; [exact Hemit|].
  rewrite (Hpage Doc.dangling_edge
             (default (mkElement EmptyString [] None [])
                      (Sample.fromstring (normalise_xml Doc.dangling_edge))));
    vm_compute; reflexivity.
Defined.

Section Subgraphs.

Variable gs : list (string * Group).

Implicit Types (rec : string → Group → nat → option (list string))
               (children : list Node) (path : list string).

Lemma odict_get_key {V : Type} (d : list (string * V)) (k : string) (v : V) :
  ODict.get k d = Some v → k ∈ ODict.keys d.
Proof.
  induction d as [|[k' v'] d IH]; simpl; [done|].
  destruct (String.eqb_spec k k') as [->|Hne]; intros H.
  - left.
  - right. by apply IH.
Qed.

Lemma nested_of_Some child c gc :
  nested_of gs child = Some (c, gc) ↔
  node_id child = Some c ∧ ODict.get c gs = Some gc.
Proof.
  unfold nested_of. destruct (node_id child) as [i|]; simpl.
  - destruct (ODict.get i gs) as [g|] eqn:E; simpl.
    + split; [intros; by simplify_eq | intros [? ?]; by simplify_eq].
    + split; [done | intros [? ?]; by simplify_eq].
  - split; [done | by intros [? _]].
Qed.

(** The children loop returns as soon as every recursive call does. *)
Lemma emit_children_returns rec indent_level children :
  (∀ child c gc, child ∈ children → nested_of gs child = Some (c, gc) →
                 is_Some (rec c gc (S indent_level))) →
  is_Some (emit_children rec gs indent_level children).
Proof.
  induction children as [|child rest IH]; intros H; simpl; [done|].
  destruct IH as [ls Hls].
  { intros ch c gc ?. apply H. by right. }
  rewrite Hls. fold (nested_of gs child).
  destruct (nested_of gs child) as [[c gc]|] eqn:E.
  - destruct (H child c gc) as [l ->]; [by left | done | done].
  - by destruct (_format_node child).
Qed.

(** The children loop fails as soon as one recursive call does. *)
Lemma emit_children_fails rec indent_level children child c gc :
  child ∈ children → nested_of gs child = Some (c, gc) →
  rec c gc (S indent_level) = None →
  emit_children rec gs indent_level children = None.
Proof.
  intros Hin Hn Hrec.
  induction children as [|ch rest IH]; [by apply elem_of_nil in Hin|].
  simpl. fold (nested_of gs ch).
  apply elem_of_cons in Hin as [<-|Hin].
  - by rewrite Hn, Hrec.
  - rewrite (IH Hin).
    destruct (nested_of gs ch) as [[c' gc']|].
    + by destruct (rec c' gc' (S indent_level)).
    + by destruct (_format_node ch).
Qed.

Lemma child_group_of_nested parent g child c gc :
  ODict.get parent gs = Some g → child ∈ group_children g →
  nested_of gs child = Some (c, gc) → child_group gs parent c.
Proof.
  intros Hg Hin [Hid Hc]%nested_of_Some. unfold child_group.
  exists g, child. split_and!; [done..|]. by exists gc.
Qed.

(** With [path] the distinct groups on the way down to [group_id], the
    recursion returns once the depth left and the way behind cover the
    index. *)
Lemma emit_subgraph_returns_below path :
  groups_acyclic gs →
  ∀ depth group_id group indent_level,
    ODict.get group_id gs = Some group →
    NoDup path → path ⊆ ODict.keys gs →
    (∀ p, p ∈ path → tc (child_group gs) p group_id) →
    length gs ≤ depth + length path →
    is_Some (_emit_subgraph_recursive depth gs group_id group indent_level).
Proof.
  intros Hacyc depth. revert path.
  induction depth as [|depth IH];
    intros path group_id group indent_level Hg Hnd Hsub Hreach Hlen.
  - exfalso.
    assert (group_id ∉ path) as Hfresh.
    { intros Hin. by apply (Hacyc group_id), Hreach. }
    assert (length (group_id :: path) ≤ length (ODict.keys gs)) as Hle.
    { apply submseteq_length, NoDup_submseteq; [by constructor|].
      intros x [->|Hx]%elem_of_cons; [by eapply odict_get_key | by apply Hsub]. }
    unfold ODict.keys in Hle. rewrite length_map in Hle. simpl in *. lia.
  - assert (group_id ∉ path) as Hfresh.
    { intros Hin. by apply (Hacyc group_id), Hreach. }
    simpl.
    destruct (emit_children_returns (_emit_subgraph_recursive depth gs)
                indent_level (group_children group)) as [body ->]; [|done].
    intros child c gc Hin Hn.
    pose proof (child_group_of_nested _ _ _ _ _ Hg Hin Hn) as Hedge.
    apply (IH (group_id :: path)).
    + by apply nested_of_Some in Hn as [_ ?].
    + by constructor.
    + intros x [->|Hx]%elem_of_cons; [by eapply odict_get_key | by apply Hsub].
    + intros p [->|Hp]%elem_of_cons; [by apply tc_once|].
      eapply tc_r; [by apply Hreach | done].
    + simpl. lia.
Qed.

(** A group on a cycle never sees its emission return. *)
Lemma emit_subgraph_cycle_fails depth :
  ∀ group_id group indent_level,
    ODict.get group_id gs = Some group →
    tc (child_group gs) group_id group_id →
    _emit_subgraph_recursive depth gs group_id group indent_level = None.
Proof.
  induction depth as [|depth IH]; intros group_id group indent_level Hg Hcyc;
    [done|].
  assert (∃ c, child_group gs group_id c ∧ tc (child_group gs) c c)
    as (c & Hedge & Hc).
  { inversion Hcyc as [? ? Hstep|? c ? Hstep Hrest]; subst.
    - exists group_id. done.
    - exists c. split; [done|]. by eapply tc_r. }
  destruct Hedge as (g & child & Hg' & Hin & Hid & [gc Hgc]).
  rewrite Hg in Hg'. simplify_eq.
  simpl.
  rewrite (emit_children_fails (_emit_subgraph_recursive depth gs)
             indent_level (group_children g) child c gc); [done | done | |].
  - by apply nested_of_Some.
  - by apply IH.
Qed.

(** Emission returning for every group within some depth rules out
    cycles. *)
Lemma acyclic_by_emission depth :
  all_groups_return depth gs → groups_acyclic gs.
Proof.
  intros Hall group_id Hcyc.
  assert (∃ group, ODict.get group_id gs = Some group) as [group Hg].
  { inversion Hcyc as [? ? (g & _ & Hg & _)|? ? ? (g & _ & Hg & _) _];
      by exists g. }
  unfold all_groups_return in Hall. rewrite Forall_forall in Hall.
  specialize (Hall group_id (odict_get_key _ _ _ Hg)).
  rewrite Hg in Hall. simpl in Hall.
  rewrite (emit_subgraph_cycle_fails depth group_id group 0 Hg Hcyc) in Hall.
  by destruct Hall.
Qed.

End Subgraphs.

(** C10. Over an acyclic group index the recursive emission of any
    registered group returns, at every indentation, as soon as the depth
    allowed exceeds the number of groups; and a group that reaches itself
    through the children lists never returns, whatever depth is allowed:
    the recursion has no guard of its own. *)
Theorem emit_subgraph_terminates (gs : list (string * Group)) :
  (groups_acyclic gs →
   ∀ group_id group indent_level depth,
     ODict.get group_id gs = Some group →
     length gs < depth →
     is_Some (_emit_subgraph_recursive depth gs group_id group indent_level))
  ∧ (∀ group_id group indent_level depth,
       ODict.get group_id gs = Some group →
       tc (child_group gs) group_id group_id →
       _emit_subgraph_recursive depth gs group_id group indent_level = None).
Proof.
  split.
  - intros Hacyc group_id group indent_level depth Hg Hlen.
    apply (emit_subgraph_returns_below gs [] Hacyc); [done | | | |].
    + constructor.
    + intros p Hp. by apply elem_of_nil in Hp.
    + intros p Hp. by apply elem_of_nil in Hp.
    + simpl. lia.
  - intros group_id group indent_level depth Hg Hcyc.
    by apply emit_subgraph_cycle_fails.
Qed.

Lemma nested_groups_acyclic : groups_acyclic Doc.nested_groups.
Proof.
  apply (acyclic_by_emission _ 3). repeat constructor; by eexists.
Qed.

Lemma emit_subgraph_terminates_witness :
  (groups_acyclic Doc.nested_groups
   ∧ ODict.get "5" Doc.nested_groups = Some (mkGroup "Outer" [Doc.inner])
   ∧ length Doc.nested_groups < 3
   ∧ ODict.get "9" Doc.cyclic_groups = Some (mkGroup "Loop" [Doc.loop_node])
   ∧ tc (child_group Doc.cyclic_groups) "9" "9")
  ∧ is_Some (_emit_subgraph_recursive 3 Doc.nested_groups "5"
               (mkGroup "Outer" [Doc.inner]) 0)
  ∧ _emit_subgraph_recursive 3 Doc.cyclic_groups "9"
      (mkGroup "Loop" [Doc.loop_node]) 0 = None.
Proof.
  assert (ODict.get "5" Doc.nested_groups = Some (mkGroup "Outer" [Doc.inner]))
    as H5 by reflexivity.
  assert (length Doc.nested_groups < 3) as Hlen by (simpl; lia).
  assert (ODict.get "9" Doc.cyclic_groups
          = Some (mkGroup "Loop" [Doc.loop_node])) as H9 by reflexivity.
  assert (tc (child_group Doc.cyclic_groups) "9" "9") as Hcyc.
  { apply tc_once. exists (mkGroup "Loop" [Doc.loop_node]), Doc.loop_node.
    split_and!; [reflexivity | by left | reflexivity | by eexists]. }
  split_and!; [exact nested_groups_acyclic | exact H5 | exact Hlen | exact H9
              | exact Hcyc | |].
  - exact (proj1 (emit_subgraph_terminates Doc.nested_groups)
             nested_groups_acyclic
             "5" (mkGroup "Outer" [Doc.inner]) 0 3 H5 Hlen).
  - exact (proj2 (emit_subgraph_terminates Doc.cyclic_groups)
             "9" (mkGroup "Loop" [Doc.loop_node]) 0 3 H9 Hcyc).
Defined.

Section GroupPass.

Variables (depth : nat) (all : list (string * Group)).

Implicit Types (todo : list (string * Group))
               (acc : list string * gset (option string)).

Lemma mark_children (children : list Node) (s : gset (option string))
    (x : option string) :
  x ∈ fold_left (λ s child, s ∪ {[ node_id child ]}) children s ↔
  x ∈ s ∨ ∃ child, child ∈ children ∧ node_id child = x.
Proof.
  revert s. induction children as [|c cs IH]; intros s; simpl.
  - split; [by left | intros [?|(? & ?%elem_of_nil & _)]; done].
  - rewrite IH, elem_of_union, elem_of_singleton. split.
    + intros [[?|E]|(ch & ? & ?)]; [by left | right | right].
      * exists c. split; [by left | done].
      * exists ch. split; [by right | done].
    + intros [?|(ch & [->|?]%elem_of_cons & ?)].
      * by left; left.
      * by left; right.
      * right. by exists ch.
Qed.

(** The pass only ever adds to what it has collected. *)
Lemma emit_groups_grows todo acc :
  (∃ more, (emit_groups depth all todo acc).1 = acc.1 ++ more)
  ∧ acc.2 ⊆ (emit_groups depth all todo acc).2.
Proof.
  revert acc. induction todo as [|[k g] todo IH]; intros acc; simpl.
  - split; [exists []; by rewrite app_nil_r | done].
  - destruct (_emit_subgraph_recursive depth all k g 0) as [block|];
      [|apply IH].
    match goal with |- context [emit_groups depth all todo ?a] =>
      destruct (IH a) as [[more Hmore] Hsub] end.
    simpl in *. split.
    + exists (block ++ more). by rewrite Hmore, app_assoc.
    + intros x Hx. apply Hsub. apply mark_children. by left.
Qed.

(** A group whose emission returns leaves its block in the lines and its
    children in [nodes_emitted]. *)
Lemma emit_groups_entry todo acc (group_id : string) (group : Group)
    (block : list string) :
  (group_id, group) ∈ todo →
  _emit_subgraph_recursive depth all group_id group 0 = Some block →
  (∃ before after,
     (emit_groups depth all todo acc).1 = before ++ block ++ after)
  ∧ ∀ child, child ∈ group_children group →
             node_id child ∈ (emit_groups depth all todo acc).2.
Proof.
  intros Hin Hblock. revert acc.
  induction todo as [|[k g] todo IH]; intros acc;
    [by apply elem_of_nil in Hin|].
  apply elem_of_cons in Hin as [E|Hin].
  - simplify_eq. simpl. rewrite Hblock.
    match goal with |- context [emit_groups depth all todo ?a] =>
      destruct (emit_groups_grows todo a) as [[more Hmore] Hsub] end.
    simpl in *. split.
    + exists acc.1, more. by rewrite Hmore, app_assoc.
    + intros child Hchild. apply Hsub. apply mark_children. right.
      by exists child.
  - simpl. destruct (_emit_subgraph_recursive depth all k g 0); by apply IH.
Qed.

End GroupPass.

Section Blocks.

Variable gs : list (string * Group).

(** A child that is not itself a group has its line in the body. *)
Lemma emit_children_line
    (rec : string → Group → nat → option (list string))
    (indent_level : nat) (children : list Node) (body : list string)
    (child : Node) (line : string) :
  emit_children rec gs indent_level children = Some body →
  child ∈ children → nested_of gs child = None →
  _format_node child = Some line →
  Py.repeat "    " indent_level +:+ "    " +:+ line ∈ body.
Proof.
  revert body. induction children as [|ch rest IH]; intros body Hbody Hin Hn Hl;
    [by apply elem_of_nil in Hin|].
  simpl in Hbody. fold (nested_of gs ch) in Hbody.
  destruct (match nested_of gs ch with
            | Some (child_id, nested_group) =>
                rec child_id nested_group (S indent_level)
            | None => _ end) as [l|] eqn:El; [|done].
  destruct (emit_children rec gs indent_level rest) as [ls|] eqn:Els; [|done].
  simplify_eq. apply elem_of_app.
  apply elem_of_cons in Hin as [<-|Hin].
  - left. rewrite Hn, Hl in El. simplify_eq. by left.
  - right. by apply IH.
Qed.

Lemma odict_get_entry {V : Type} (d : list (string * V)) (k : string) (v : V) :
  NoDup (ODict.keys d) → (k, v) ∈ d → ODict.get k d = Some v.
Proof.
  induction d as [|[k' v'] d IH]; simpl; intros Hnd Hin;
    [by apply elem_of_nil in Hin|].
  apply NoDup_cons in Hnd as [Hfresh Hnd].
  apply elem_of_cons in Hin as [E|Hin].
  - simplify_eq. by rewrite String.eqb_refl.
  - destruct (String.eqb_spec k k') as [->|Hne]; [|by apply IH].
    exfalso. apply Hfresh. apply list_elem_of_fmap. by exists (k', v).
Qed.


(** A child that is itself a group has its block in the body. *)
Lemma emit_children_block
    (rec : string → Group → nat → option (list string))
    (indent_level : nat) (children : list Node) (body : list string)
    (child : Node) (c : string) (gc : Group) :
  emit_children rec gs indent_level children = Some body →
  child ∈ children → nested_of gs child = Some (c, gc) →
  ∃ inner before after,
    rec c gc (S indent_level) = Some inner ∧ body = before ++ inner ++ after.
Proof.
  revert body. induction children as [|ch rest IH]; intros body Hbody Hin Hn;
    [by apply elem_of_nil in Hin|].
  simpl in Hbody. fold (nested_of gs ch) in Hbody.
  destruct (match nested_of gs ch with
            | Some (child_id, nested_group) =>
                rec child_id nested_group (S indent_level)
            | None => _ end) as [l|] eqn:El; [|done].
  destruct (emit_children rec gs indent_level rest) as [ls|] eqn:Els; [|done].
  simplify_eq.
  apply elem_of_cons in Hin as [<-|Hin].
  - rewrite Hn in El. exists l, [], ls. done.
  - destruct (IH ls eq_refl Hin Hn) as (inner & before & after & Hi & ->).
    exists inner, (l ++ before), after. by rewrite app_assoc.
Qed.

End Blocks.

(** C5. In a diagram whose group index is acyclic (and, as a dictionary,
    has distinct keys), emitted with room for its nesting, the output is
    the header, the group pass, the flat pass and the edges; a member of a
    group is not among the nodes of the flat pass, nor is any node of its
    id; and the group pass holds the block of its group, from the
    [subgraph] header to [end], with the member inside: its node line at
    one more indentation or, when the member is itself a group, that
    group's whole block. *)
Theorem grouped_nodes_not_flat (depth : nat)
    (node_map : gmap (option string) Node) (diagram : Diagram)
    (direction diagram_type : string)
    (group_id : string) (group : Group) (child : Node) :
  groups_acyclic (groups diagram) →
  NoDup (ODict.keys (groups diagram)) →
  length (groups diagram) < depth →
  (group_id, group) ∈ groups diagram →
  child ∈ group_children group →
  _emit_mermaid depth node_map diagram direction diagram_type
  = Py.join nl
      (["flowchart " +:+ direction] ++ group_pass depth diagram
       ++ omap _format_node (flat_pass depth diagram)
       ++ omap (λ edge, if resolvable node_map edge
                        then _format_edge edge else None) (edges diagram))
  ∧ (∀ node, node ∈ flat_pass depth diagram → node_id node ≠ node_id child)
  ∧ ∃ body before after,
      group_pass depth diagram
      = before
        ++ (("subgraph " +:+ group_id +:+ "[" +:+ group_label group +:+ "]")
              :: body ++ ["end"])
        ++ after
      ∧ (nested_of (groups diagram) child = None →
         ∀ line, _format_node child = Some line → "    " +:+ line ∈ body)
      ∧ (∀ c gc, nested_of (groups diagram) child = Some (c, gc) →
           ∃ inner before' after',
             _emit_subgraph_recursive (pred depth) (groups diagram) c gc 1
             = Some inner
             ∧ body = before' ++ inner ++ after').
Proof.
  intros Hacyc Hnd Hlen Hentry Hchild.
  split.
  { unfold _emit_mermaid, group_pass, flat_pass.
    destruct (emit_groups depth (groups diagram) (groups diagram) ([], ∅)).
    simpl. by destruct (String.eqb diagram_type "flowchart"). }
  pose proof (odict_get_entry _ _ _ Hnd Hentry) as Hg.
  destruct (emit_subgraph_returns_below (groups diagram) [] Hacyc depth
              group_id group 0 Hg) as [block Hblock].
  { constructor. }
  { intros p Hp. by apply elem_of_nil in Hp. }
  { intros p Hp. by apply elem_of_nil in Hp. }
  { simpl. lia. }
  destruct (emit_groups_entry depth (groups diagram) (groups diagram) ([], ∅)
              group_id group block Hentry Hblock) as [(before & after & Hb) Hm].
  split.
  - intros node Hnode E. unfold flat_pass, flat_nodes in Hnode.
    apply list_elem_of_filter in Hnode as [Hnot _]. apply Hnot.
    rewrite E. by apply Hm.
  - destruct depth as [|depth']; [lia|]. simpl in Hblock.
    destruct (emit_children (_emit_subgraph_recursive depth' (groups diagram))
                (groups diagram) 0 (group_children group)) as [body|] eqn:Eb;
      [|done].
    simplify_eq. exists body, before, after. split; [exact Hb|]. split.
    + intros Hn line Hl.
      exact (emit_children_line _ _ 0 _ _ _ _ Eb Hchild Hn Hl).
    + intros c gc Hn.
      exact (emit_children_block _ _ 0 _ _ _ _ _ Eb Hchild Hn).
Qed.

Lemma swimlane_groups_acyclic : groups_acyclic (groups Doc.swimlane_diagram).
Proof.
  apply (acyclic_by_emission _ 2). repeat constructor; by eexists.
Qed.

Lemma grouped_nodes_not_flat_witness :
  (groups_acyclic (groups Doc.swimlane_diagram)
   ∧ NoDup (ODict.keys (groups Doc.swimlane_diagram))
   ∧ length (groups Doc.swimlane_diagram) < 8
   ∧ ("5", mkGroup "Lane" [Doc.lane_task]) ∈ groups Doc.swimlane_diagram
   ∧ Doc.lane_task ∈ group_children (mkGroup "Lane" [Doc.lane_task]))
  ∧ (∀ node, node ∈ flat_pass 8 Doc.swimlane_diagram →
             node_id node ≠ Some "6")
  ∧ ∃ body before after,
      group_pass 8 Doc.swimlane_diagram
      = before ++ ("subgraph 5[Lane]" :: body ++ ["end"]) ++ after
      ∧ "    N6[" +:+ dq +:+ "Task" +:+ dq +:+ "]" ∈ body.
Proof.
  assert (NoDup (ODict.keys (groups Doc.swimlane_diagram))) as Hnd
    by (apply NoDup_singleton).
  assert (length (groups Doc.swimlane_diagram) < 8) as Hlen by (simpl; lia).
  assert (("5", mkGroup "Lane" [Doc.lane_task]) ∈ groups Doc.swimlane_diagram)
    as Hentry by (left).
  assert (Doc.lane_task ∈ group_children (mkGroup "Lane" [Doc.lane_task]))
    as Hchild by (left).
  split; [by split_and!; try apply swimlane_groups_acyclic|].
  destruct (grouped_nodes_not_flat 8 ∅ Doc.swimlane_diagram "TD" "flowchart"
              "5" (mkGroup "Lane" [Doc.lane_task]) Doc.lane_task
              swimlane_groups_acyclic Hnd Hlen Hentry Hchild)
    as (_ & Hflat & body & before & after & Hpass & Hline & _).
  split; [exact Hflat|].
  exists body, before, after. split; [exact Hpass|].
  apply Hline; vm_compute; reflexivity.
Defined.

(** Scenario C, run: the model built from the swimlane document, and its
    conversion under either policy. *)
Example swimlane_scenario :
  (_build_diagram_from_root (Doc.parsed Doc.swimlane)).2 = Doc.swimlane_diagram
  ∧ ∀ strict_mode,
      convert Sample.libs strict_mode 8 Doc.swimlane 0 "TD" "flowchart"
      = Ret ("flowchart TD" +:+ nl
             +:+ "subgraph 5[Lane]" +:+ nl
             +:+ "    N6[" +:+ dq +:+ "Task" +:+ dq +:+ "]" +:+ nl
             +:+ "end" +:+ nl
             +:+ "N5[" +:+ dq +:+ "Lane" +:+ dq +:+ "]").
Proof. split; [|intros []]; vm_compute; reflexivity. Qed.

(** C6, at the nested swimlanes. Group 6 is a member of group 5, and the
    pass over the index emits it a second time at top level: after the
    block of group 5, which holds the block of group 6 indented, comes the
    block of group 6 again. *)
Theorem nested_group_emitted_twice :
  (_build_diagram_from_root (Doc.parsed Doc.nested)).2 = Doc.nested_diagram
  ∧ child_group (groups Doc.nested_diagram) "5" "6"
  ∧ group_pass 8 Doc.nested_diagram
    = [ "subgraph 5[Outer]";
        "    subgraph 6[Inner]";
        "        N7[" +:+ dq +:+ "Task" +:+ dq +:+ "]";
        "    end";
        "end";
        "subgraph 6[Inner]";
        "    N7[" +:+ dq +:+ "Task" +:+ dq +:+ "]";
        "end" ]
  ∧ ∀ strict_mode,
      convert Sample.libs strict_mode 8 Doc.nested 0 "TD" "flowchart"
      = Ret ("flowchart TD" +:+ nl
             +:+ "subgraph 5[Outer]" +:+ nl
             +:+ "    subgraph 6[Inner]" +:+ nl
             +:+ "        N7[" +:+ dq +:+ "Task" +:+ dq +:+ "]" +:+ nl
             +:+ "    end" +:+ nl
             +:+ "end" +:+ nl
             +:+ "subgraph 6[Inner]" +:+ nl
             +:+ "    N7[" +:+ dq +:+ "Task" +:+ dq +:+ "]" +:+ nl
             +:+ "end" +:+ nl
             +:+ "N5[" +:+ dq +:+ "Outer" +:+ dq +:+ "]").
Proof.
  split_and!.
  - vm_compute; reflexivity.
  - exists (mkGroup "Outer" [Doc.inner]), Doc.inner.
    split_and!; [reflexivity | by left | reflexivity | by eexists].
  - vm_compute; reflexivity.
  - intros []; vm_compute; reflexivity.
Qed.

(** * Further properties of the code *)

(** ** The style microparser, continued *)

Section ParseStyleMore.

Implicit Types (d : gmap string style_value) (token key : string).

Lemma parse_style_unguarded (style_str : string) :
  parse_style style_str
  = fold_left parse_style_token (Py.split ";" style_str) ∅.
Proof. by destruct style_str. Qed.

Lemma parse_style_lookup_token (style_str key : string) (value : style_value) :
  parse_style style_str !! key = Some value →
  ∃ token, token ∈ Py.split ";" style_str ∧ binds token key value.
Proof.
  rewrite parse_style_unguarded, fold_parse_style_lookup.
  intros [(b & t & a & E & Hb & _)|[H _]]; [|by rewrite lookup_empty in H].
  exists t. split; [|done]. rewrite E. apply elem_of_app. right. by left.
Qed.

Lemma split_append (sep : ascii) (a b : string) :
  Py.split sep (a +:+ String sep b) = Py.split sep a ++ Py.split sep b.
Proof.
  induction a as [|c a IH]; simpl.
  - by rewrite Ascii.eqb_refl.
  - destruct (Ascii.eqb c sep); [by rewrite IH|].
    rewrite IH. pose proof (split_nonempty sep a) as Hn.
    by destruct (Py.split sep a).
Qed.

Lemma parse_style_token_union d token :
  parse_style_token d token = parse_style_token ∅ token ∪ d.
Proof.
  unfold parse_style_token.
  destruct (Py.str_in "=" token).
  - destruct (Py.split1 "=" token) as [|k [|v [|? ?]]];
      rewrite ?(left_id_L ∅ (∪)); try done.
    by rewrite insert_empty, <- insert_union_singleton_l.
  - destruct (Py.truthy token); rewrite ?(left_id_L ∅ (∪)); [|done].
    by rewrite insert_empty, <- insert_union_singleton_l.
Qed.

Lemma fold_parse_style_union (tokens : list string) d :
  fold_left parse_style_token tokens d
  = fold_left parse_style_token tokens ∅ ∪ d.
Proof.
  revert d. induction tokens as [|t ts IH]; intros d; simpl.
  - by rewrite (left_id_L ∅ (∪)).
  - rewrite (IH (parse_style_token d t)), (IH (parse_style_token ∅ t)).
    rewrite (parse_style_token_union d t). by rewrite (assoc_L (∪)).
Qed.

End ParseStyleMore.

(** X1. No key of a parsed style holds a [;] or an [=], no value holds a
    [;], and a key bound to the flag is never the empty text. *)
Theorem parse_style_keys_clean (style_str key : string) (value : style_value) :
  parse_style style_str !! key = Some value →
  ¬ has_char ";" key ∧ ¬ has_char "=" key
  ∧ match value with
    | SStr rest => ¬ has_char ";" rest
    | STrue => key ≠ EmptyString
    end.
Proof.
  intros (token & Hin & Hb)%parse_style_lookup_token.
  pose proof (split_no_sep ";" style_str) as Hall.
  rewrite Forall_forall in Hall. specialize (Hall token Hin).
  destruct Hb as [(rest & -> & Hk & ->)|(-> & Hne & Hno & ->)].
  - split_and!; [|done|].
    + intros H. apply Hall. apply has_char_append. by left.
    + intros H. apply Hall. apply has_char_append. right.
      apply has_char_cons. by right.
  - done.
Qed.

Lemma parse_style_keys_clean_witness :
  parse_style "shape=ellipse;a=b=c;flag" !! "a" = Some (SStr "b=c")
  ∧ ¬ has_char ";" "a" ∧ ¬ has_char "=" "a" ∧ ¬ has_char ";" "b=c".
Proof.
  assert (parse_style "shape=ellipse;a=b=c;flag" !! "a" = Some (SStr "b=c"))
    as H by (vm_compute; reflexivity).
  split; [exact H|].
  exact (parse_style_keys_clean "shape=ellipse;a=b=c;flag" "a" (SStr "b=c") H).
Defined.

(** X2. Style strings compose: parsing [a;b] gives the bindings of [b]
    over those of [a], so a later declaration of a key overrides an
    earlier one; in particular a trailing [;] changes nothing. *)
Theorem parse_style_append (a b : string) :
  parse_style (a +:+ ";" +:+ b) = parse_style b ∪ parse_style a
  ∧ parse_style (a +:+ ";") = parse_style a.
Proof.
  assert (∀ a b, parse_style (a +:+ ";" +:+ b)
                 = parse_style b ∪ parse_style a) as H.
  { intros x y. rewrite !parse_style_unguarded.
    change (x +:+ ";" +:+ y) with (x +:+ String ";" y).
    rewrite split_append, fold_left_app. apply fold_parse_style_union. }
  split; [apply H|].
  change (a +:+ ";") with (a +:+ ";" +:+ EmptyString). rewrite H.
  change (parse_style EmptyString) with (∅ : gmap string style_value).
  by rewrite (left_id_L ∅ (∪)).
Qed.

(** ** The payload extractor, continued *)

Section Extraction.

Variable L : Libs.

Implicit Types (strict_mode : bool) (decoded : list Byte.byte)
               (d page : string) (diagram_pages diagrams : list string).

Lemma marked_text (text : string) (page : string) :
  (if Py.str_in marker text then Some text else None) = Some page →
  occurs marker page.
Proof.
  destruct (Py.str_in marker text) eqn:E; [|done].
  intros [= <-]. by apply str_in_occurs.
Qed.

Lemma inflate_attempt_marker decoded (wbits : Z) page :
  inflate_attempt L decoded wbits = Some page → occurs marker page.
Proof.
  unfold inflate_attempt.
  destruct (if (wbits =? 0)%Z then _ else _) as [b|]; simpl; [|done].
  apply marked_text.
Qed.

Lemma inflate_attempts_marker decoded (attempts : list Z) page :
  inflate_attempts L decoded attempts = Some page → occurs marker page.
Proof.
  induction attempts as [|w ws IH]; simpl; [done|].
  destruct (inflate_attempt L decoded w) eqn:E; [|done].
  intros [= <-]. by eapply inflate_attempt_marker.
Qed.

Lemma gzip_attempt_marker decoded page :
  gzip_attempt L decoded = Some page → occurs marker page.
Proof.
  unfold gzip_attempt.
  destruct decoded as [|b1 [|b2 rest]]; [done | by destruct b1 |].
  destruct b1; try done. destruct b2; try done.
  destruct (gzip_decompress L _) as [b|]; simpl; [|done].
  apply marked_text.
Qed.

Lemma pako_attempt_marker decoded page :
  pako_attempt L decoded = Some page → occurs marker page.
Proof.
  unfold pako_attempt.
  destruct (decompressobj_decompress L _ _) as [b|]; simpl; [|done].
  apply marked_text.
Qed.

Lemma last_resort_xml_like strict_mode decoded page :
  last_resort strict_mode decoded = Some page →
  strict_mode = false ∧ xml_like page.
Proof.
  unfold last_resort. destruct strict_mode; [done|].
  destruct (Py.str_in "<" _ && Py.str_in ">" _) eqn:E; [|done].
  intros [= <-]. apply andb_true_iff in E as [E1 E2].
  split; [done|]. split; by apply str_in_char.
Qed.

Lemma decode_fragment_page strict_mode d page :
  decode_fragment L strict_mode d = Ret (Some page) →
  acceptable strict_mode page.
Proof.
  unfold decode_fragment, acceptable.
  destruct (negb (Py.truthy (Py.strip d))); [done|].
  destruct (Py.startswith "<" (Py.strip d) && Py.str_in marker (Py.strip d))
    eqn:E1.
  { intros [= <-]. left. apply andb_true_iff in E1 as [_ E1].
    by apply str_in_occurs. }
  destruct (Py.str_in marker (unquote L (Py.strip d))) eqn:E2.
  { intros [= <-]. left. by apply str_in_occurs. }
  destruct (base64_decode L _) as [decoded|]; [|by destruct strict_mode].
  destruct (Py.startswith "<" (decode_utf8_ignore L decoded)
            && Py.str_in marker (decode_utf8_ignore L decoded)) eqn:E3.
  { intros [= <-]. left. apply andb_true_iff in E3 as [_ E3].
    by apply str_in_occurs. }
  destruct (inflate_attempts L decoded _) as [p|] eqn:E4.
  { intros [= <-]. left. by eapply inflate_attempts_marker. }
  destruct (gzip_attempt L decoded) as [p|] eqn:E5.
  { intros [= <-]. left. by eapply gzip_attempt_marker. }
  destruct (pako_attempt L decoded) as [p|] eqn:E6.
  { intros [= <-]. left. by eapply pako_attempt_marker. }
  destruct (last_resort strict_mode decoded) as [p|] eqn:E7.
  { intros [= <-]. right. by eapply last_resort_xml_like. }
  by destruct strict_mode.
Qed.

Lemma decode_fragment_relaxed d :
  ∃ found : option string, decode_fragment L false d = Ret found.
Proof.
  unfold decode_fragment. repeat case_match; eauto.
Qed.

Lemma decode_fragment_blank strict_mode d :
  Py.strip d = EmptyString → decode_fragment L strict_mode d = Ret None.
Proof. intros E. unfold decode_fragment. by rewrite E. Qed.

Lemma decode_fragments_app strict_mode diagram_pages (ds1 ds2 : list string) :
  decode_fragments L strict_mode diagram_pages (ds1 ++ ds2)
  = decode_fragments L strict_mode diagram_pages ds1
    ≫= λ pages, decode_fragments L strict_mode pages ds2.
Proof.
  revert diagram_pages. induction ds1 as [|d ds1 IH]; intros pages; simpl;
    [done|].
  destruct (decode_fragment L strict_mode d) as [page|e]; simpl; [|done].
  apply IH.
Qed.

Lemma decode_fragments_pages strict_mode diagram_pages diagrams
    (pages : list string) :
  decode_fragments L strict_mode diagram_pages diagrams = Ret pages →
  ∃ more, pages = diagram_pages ++ more
          ∧ length more ≤ length diagrams
          ∧ Forall (acceptable strict_mode) more.
Proof.
  revert diagram_pages. induction diagrams as [|d ds IH]; intros pages0; simpl.
  - intros [= <-]. exists []. by rewrite app_nil_r.
  - destruct (decode_fragment L strict_mode d) as [page|e] eqn:E; simpl;
      [|done].
    intros (more & -> & Hlen & Hall)%IH.
    destruct page as [p|]; simpl.
    + exists (p :: more). rewrite <- app_assoc. split_and!; [done | simpl; lia |].
      constructor; [by eapply decode_fragment_page | done].
    + exists more. rewrite app_nil_r. split_and!; [done | lia | done].
Qed.

Lemma decode_fragments_relaxed diagram_pages diagrams :
  ∃ pages, decode_fragments L false diagram_pages diagrams = Ret pages.
Proof.
  revert diagram_pages. induction diagrams as [|d ds IH]; intros pages0; simpl;
    [by eexists|].
  destruct (decode_fragment_relaxed d) as [found ->]. simpl. apply IH.
Qed.

End Extraction.

(** X3. Under the relaxed policy the loop over the fragments never
    raises, whatever the libraries do; extraction and the page listing
    return whenever the input holds the marker or a wrapper fragment, the
    cases in which the XML parser is not consulted; and [convert], whose
    handler covers its whole body, returns a text for every input and page
    index. *)
Theorem relaxed_never_raises (L : Libs) (depth : nat) (input_data : string)
    (diagram_index : Z) (direction diagram_type : string)
    (diagram_pages diagrams : list string) :
  (∃ pages, decode_fragments L false diagram_pages diagrams = Ret pages)
  ∧ (occurs marker input_data ∨ Re.findall_diagram input_data ≠ [] →
     (∃ pages, _decompress_data L false diagram_pages input_data = Ret pages)
     ∧ ∃ indices, list_diagram_pages L false input_data = Ret indices)
  ∧ ∃ text,
      convert L false depth input_data diagram_index direction diagram_type
      = Ret text.
Proof.
  split_and!.
  - apply decode_fragments_relaxed.
  - intros H.
    assert (∀ pages0, ∃ pages,
              _decompress_data L false pages0 input_data = Ret pages) as Hx.
    { intros pages0. unfold _decompress_data.
      destruct (Py.str_in marker input_data) eqn:Em; [by eexists|].
      destruct H as [H%str_in_occurs|H]; [congruence|].
      unfold find_diagrams.
      destruct (Re.findall_diagram input_data) as [|d ds]; [done|].
      apply decode_fragments_relaxed. }
    split; [apply Hx|].
    unfold list_diagram_pages. destruct (Hx []) as [pages ->]. by eexists.
  - unfold convert, on_failure. case_match; by eexists.
Qed.

Lemma relaxed_never_raises_witness :
  Re.findall_diagram Doc.two_pages ≠ []
  ∧ (∃ pages, _decompress_data Sample.libs false [] Doc.two_pages = Ret pages)
  ∧ ∃ indices, list_diagram_pages Sample.libs false Doc.two_pages = Ret indices.
Proof.
  assert (Re.findall_diagram Doc.two_pages ≠ []) as H
    by (vm_compute; discriminate).
  split; [exact H|].
  exact (proj1 (proj2 (relaxed_never_raises Sample.libs 8 Doc.two_pages 0
                         "TD" "flowchart" [] []))
               (or_intror H)).
Defined.

(** X4. Extraction only appends: the pages already listed stay in place,
    an input holding the marker adds itself alone, any other input adds at
    most one page per fragment found, and every page added holds the
    marker, except that the relaxed policy also lets through text with a
    [<] and a [>] recovered by the last resort. *)
Theorem extraction_appends (L : Libs) (strict_mode : bool)
    (diagram_pages : list string) (xml_data : string) (pages : list string) :
  _decompress_data L strict_mode diagram_pages xml_data = Ret pages →
  ∃ more,
    pages = diagram_pages ++ more
    ∧ (occurs marker xml_data → more = [xml_data])
    ∧ (¬ occurs marker xml_data →
       length more ≤ length (find_diagrams L xml_data))
    ∧ Forall (λ page, occurs marker page
                      ∨ (strict_mode = false ∧ xml_like page)) more.
Proof.
  unfold _decompress_data.
  destruct (Py.str_in marker xml_data) eqn:Em.
  - intros [= <-]. apply str_in_occurs in Em. exists [xml_data].
    split_and!; [done | done | done |]. constructor; [by left | done].
  - assert (¬ occurs marker xml_data) as Hno
      by (intros H%str_in_occurs; congruence).
    destruct (find_diagrams L xml_data) as [|d ds] eqn:Ef.
    + destruct strict_mode; [done|]. intros [= <-]. exists [].
      rewrite app_nil_r. split_and!; [done | done | done | done].
    + intros (more & -> & Hlen & Hall)%decode_fragments_pages.
      exists more. split_and!; [done | done | done | done].
Qed.

Lemma extraction_appends_witness :
  _decompress_data Sample.libs true ["first"] Doc.two_pages
  = Ret ["first";
         "<mxGraphModel><root><mxCell id='2' value='One' vertex='1'/></root></mxGraphModel>";
         "<mxGraphModel><root><mxCell id='3' value='Two' vertex='1'/></root></mxGraphModel>"]
  ∧ ∃ more,
      ["first";
       "<mxGraphModel><root><mxCell id='2' value='One' vertex='1'/></root></mxGraphModel>";
       "<mxGraphModel><root><mxCell id='3' value='Two' vertex='1'/></root></mxGraphModel>"]
      = ["first"] ++ more
      ∧ Forall (λ page, occurs marker page
                        ∨ (true = false ∧ xml_like page)) more.
Proof.
  assert (_decompress_data Sample.libs true ["first"] Doc.two_pages
          = Ret ["first";
                 "<mxGraphModel><root><mxCell id='2' value='One' vertex='1'/></root></mxGraphModel>";
                 "<mxGraphModel><root><mxCell id='3' value='Two' vertex='1'/></root></mxGraphModel>"])
    as H by (vm_compute; reflexivity).
  split; [exact H|].
  destruct (extraction_appends Sample.libs true ["first"] Doc.two_pages _ H)
    as (more & E & _ & _ & Hall).
  exists more. split; [exact E | exact Hall].
Defined.

(** X5. An input without the marker in which no fragment is found has no
    page to offer: extraction raises [DiagramDecompressionError] under the
    strict policy and leaves the page list as it was under the relaxed
    one, and [convert] raises the same error or returns the empty text. *)
Theorem no_payload_policy (L : Libs) (strict_mode : bool) (depth : nat)
    (input_data : string) (diagram_index : Z)
    (direction diagram_type : string) (diagram_pages : list string) :
  find_diagrams L input_data = [] →
  ¬ occurs marker input_data →
  _decompress_data L strict_mode diagram_pages input_data
  = (if strict_mode then Raise DiagramDecompressionError
     else Ret diagram_pages)
  ∧ convert L strict_mode depth input_data diagram_index direction diagram_type
    = (if strict_mode then Raise DiagramDecompressionError
       else Ret EmptyString).
Proof.
  intros Hf Hno.
  assert (Py.str_in marker input_data = false) as Em.
  { destruct (Py.str_in marker input_data) eqn:E; [|done].
    by apply str_in_occurs in E. }
  assert (∀ pages0, _decompress_data L strict_mode pages0 input_data
                    = (if strict_mode then Raise DiagramDecompressionError
                       else Ret pages0)) as Hx.
  { intros pages0. unfold _decompress_data. by rewrite Em, Hf. }
  split; [apply Hx|].
  unfold convert. rewrite Hx. by destruct strict_mode.
Qed.

Lemma no_payload_policy_witness :
  (find_diagrams Sample.libs "no diagram here" = []
   ∧ ¬ occurs marker "no diagram here")
  ∧ convert Sample.libs true 8 "no diagram here" 0 "TD" "flowchart"
    = Raise DiagramDecompressionError
  ∧ convert Sample.libs false 8 "no diagram here" 0 "TD" "flowchart"
    = Ret EmptyString.
Proof.
  assert (find_diagrams Sample.libs "no diagram here" = []) as Hf
    by (vm_compute; reflexivity).
  assert (¬ occurs marker "no diagram here") as Hno
    by (intros H%str_in_occurs; vm_compute in H; discriminate H).
  split; [done|]. split.
  - exact (proj2 (no_payload_policy Sample.libs true 8 "no diagram here" 0
                    "TD" "flowchart" [] Hf Hno)).
  - exact (proj2 (no_payload_policy Sample.libs false 8 "no diagram here" 0
                    "TD" "flowchart" [] Hf Hno)).
Defined.

(** X6. A fragment that is empty once trimmed is skipped under either
    policy, wherever it stands among the fragments: the pages decoded are
    those decoded without it, and it never raises. *)
Theorem blank_fragment_skipped (L : Libs) (strict_mode : bool)
    (diagram_pages : list string) (ds1 ds2 : list string) (d : string) :
  Py.strip d = EmptyString →
  decode_fragments L strict_mode diagram_pages (ds1 ++ d :: ds2)
  = decode_fragments L strict_mode diagram_pages (ds1 ++ ds2).
Proof.
  intros Hd. rewrite !decode_fragments_app.
  destruct (decode_fragments L strict_mode diagram_pages ds1) as [pages|e];
    simpl; [|done].
  rewrite (decode_fragment_blank L strict_mode d Hd). simpl.
  by rewrite app_nil_r.
Qed.

Lemma blank_fragment_skipped_witness :
  Py.strip "   " = EmptyString
  ∧ decode_fragments Sample.libs true []
      (["%3CmxGraphModel/%3E"] ++ "   " :: ["<mxGraphModel/>"])
    = decode_fragments Sample.libs true []
        (["%3CmxGraphModel/%3E"] ++ ["<mxGraphModel/>"]).
Proof.
  assert (Py.strip "   " = EmptyString) as H by reflexivity.
  split; [exact H|].
  exact (blank_fragment_skipped Sample.libs true [] ["%3CmxGraphModel/%3E"]
           ["<mxGraphModel/>"] "   " H).
Defined.

(** X7. A document holding the marker has exactly one page, index 0: the
    page listing is [0], index 0 converts the input itself, and every
    other index is out of range, raising [IndexError] when strict and
    converting the input all the same when relaxed. *)
Theorem inline_document_single_page (L : Libs) (strict_mode : bool)
    (depth : nat) (input_data : string) (diagram_index : Z)
    (direction diagram_type : string) :
  occurs marker input_data →
  list_diagram_pages L strict_mode input_data = Ret [0]
  ∧ convert L strict_mode depth input_data diagram_index direction diagram_type
    = if decide (diagram_index = 0%Z) then
        on_failure strict_mode
          (convert_page L strict_mode depth input_data direction diagram_type)
      else if strict_mode then Raise IndexError
      else on_failure false
             (convert_page L false depth input_data direction diagram_type).
Proof.
  intros Hm%str_in_occurs.
  assert (_decompress_data L strict_mode [] input_data = Ret [input_data])
    as Hx by (unfold _decompress_data; by rewrite Hm).
  split; [unfold list_diagram_pages; by rewrite Hx|].
  unfold convert. rewrite Hx. simpl.
  destruct (decide (diagram_index = 0%Z)) as [->|Hne].
  - rewrite bool_decide_eq_false_2 by lia. done.
  - rewrite bool_decide_eq_true_2 by lia. by destruct strict_mode.
Qed.

Lemma inline_document_single_page_witness :
  occurs marker Doc.start
  ∧ list_diagram_pages Sample.libs true Doc.start = Ret [0]
  ∧ convert Sample.libs true 8 Doc.start 3 "TD" "flowchart" = Raise IndexError.
Proof.
  assert (occurs marker Doc.start) as H
    by (apply str_in_occurs; vm_compute; reflexivity).
  split; [exact H|].
  destruct (inline_document_single_page Sample.libs true 8 Doc.start 3
              "TD" "flowchart" H) as [Hl Hc].
  split; [exact Hl | exact Hc].
Defined.

(** ** The parser wrapper, continued *)

Section Normalisation.

Lemma append_assoc (a b c : string) : (a +:+ b) +:+ c = a +:+ b +:+ c.
Proof. induction a as [|x a IH]; simpl; [done | by rewrite IH]. Qed.

Lemma lstrip_suffix (s : string) : ∃ pre, s = pre +:+ Py.lstrip s.
Proof.
  induction s as [|c s [pre IH]]; simpl; [by exists EmptyString|].
  destruct (Py.isspace c).
  - exists (String c pre). simpl. by rewrite <- IH.
  - by exists EmptyString.
Qed.

Lemma rstrip_prefix (s : string) : ∃ suf, s = Py.rstrip s +:+ suf.
Proof.
  induction s as [|c s [suf IH]]; simpl; [by exists EmptyString|].
  destruct (Py.rstrip s) as [|c' r] eqn:E.
  - destruct (Py.isspace c).
    + by exists (String c s).
    + exists s. done.
  - exists suf. simpl in *. by f_equal.
Qed.

Lemma occurs_strip (sub s : string) : occurs sub (Py.strip s) → occurs sub s.
Proof.
  intros (b & a & E). unfold Py.strip in E.
  destruct (lstrip_suffix s) as [pre Hpre].
  destruct (rstrip_prefix (Py.lstrip s)) as [suf Hsuf].
  exists (pre +:+ b), (a +:+ suf).
  rewrite Hpre at 1. rewrite Hsuf at 1. rewrite E.
  by rewrite !append_assoc.
Qed.

Lemma prolog_excludes_model (s : string) :
  Py.startswith "<?xml" s = true → Py.startswith "<mxGraphModel" s = false.
Proof.
  intros [r Hr]%startswith_spec.
  destruct (Py.startswith "<mxGraphModel" s) eqn:E; [|done].
  apply startswith_spec in E as [r' Hr']. rewrite Hr in Hr'.
  simpl in Hr'. discriminate Hr'.
Qed.

Lemma prolog_stripped (s : string) :
  Py.startswith "<mxGraphModel" (Py.strip (xml_prolog +:+ s)) = false.
Proof.
  unfold Py.strip, xml_prolog, dq, nl. simpl.
  match goal with |- context [Py.rstrip ?r] => destruct (Py.rstrip r) end;
    reflexivity.
Qed.

End Normalisation.

(** X8. The text handed to the XML parser is the input with [&nbsp;]
    rewritten, preceded by the prolog when it holds the marker and does
    not already start with one; the last step of the normalisation, which
    would wrap a bare graph model in a [diagram] element, never applies. *)
Theorem normalise_never_wraps (xml_data : string) :
  normalise_xml xml_data
  = let cleaned := Py.replace "&nbsp;" "&#160;" xml_data in
    if negb (Py.startswith "<?xml" (Py.strip cleaned))
       && Py.str_in marker cleaned
    then xml_prolog +:+ cleaned else cleaned.
Proof.
  unfold normalise_xml. cbv zeta.
  set (cleaned := Py.replace "&nbsp;" "&#160;" xml_data).
  destruct (Py.startswith "<?xml" (Py.strip cleaned)) eqn:Ep; cbn [negb andb].
  - by rewrite (prolog_excludes_model _ Ep).
  - destruct (Py.str_in marker cleaned) eqn:Em.
    + by rewrite prolog_stripped.
    + destruct (Py.startswith "<mxGraphModel" (Py.strip cleaned)) eqn:Es;
        [|done].
      exfalso. apply startswith_spec in Es as [r Hr].
      assert (occurs marker cleaned) as Ho.
      { apply occurs_strip. exists EmptyString, r. by rewrite Hr. }
      apply str_in_occurs in Ho. congruence.
Qed.

(** ** The structural builder *)

Section OrderedDict.

Context {V : Type}.

Implicit Types (d : list (string * V)) (k : string) (v : V).

Lemma odict_get_set_eq d k v : ODict.get k (ODict.set k v d) = Some v.
Proof.
  induction d as [|[k' v'] d IH]; simpl.
  - by rewrite String.eqb_refl.
  - destruct (String.eqb_spec k k') as [->|Hne]; simpl.
    + by rewrite String.eqb_refl.
    + destruct (String.eqb_spec k k'); [done | exact IH].
Qed.

Lemma odict_get_set_ne d k k' v :
  k ≠ k' → ODict.get k' (ODict.set k v d) = ODict.get k' d.
Proof.
  intros Hne. induction d as [|[k0 v0] d IH]; simpl.
  - destruct (String.eqb_spec k' k); [congruence | done].
  - destruct (String.eqb_spec k k0) as [->|Hne0]; simpl.
    + destruct (String.eqb_spec k' k0); [congruence | done].
    + by rewrite IH.
Qed.

Lemma odict_get_None d k : ODict.get k d = None ↔ k ∉ ODict.keys d.
Proof.
  induction d as [|[k' v'] d IH]; simpl.
  - split; [intros _ H; by apply elem_of_nil in H | done].
  - rewrite not_elem_of_cons. simpl.
    destruct (String.eqb_spec k k') as [->|Hne]; [by split; [|intros [? _]]|].
    rewrite IH. tauto.
Qed.

Lemma odict_keys_set d k v :
  ODict.keys (ODict.set k v d)
  = match ODict.get k d with
    | Some _ => ODict.keys d
    | None => ODict.keys d ++ [k]
    end.
Proof.
  induction d as [|[k' v'] d IH]; simpl; [done|].
  destruct (String.eqb_spec k k') as [->|Hne]; simpl; [done|].
  rewrite IH. by destruct (ODict.get k d).
Qed.

Lemma odict_set_NoDup d k v :
  NoDup (ODict.keys d) → NoDup (ODict.keys (ODict.set k v d)).
Proof.
  intros Hnd. rewrite odict_keys_set.
  destruct (ODict.get k d) eqn:E; [done|].
  apply NoDup_app. split_and!; [done | | apply NoDup_singleton].
  intros x Hx ->%list_elem_of_singleton. by apply odict_get_None in E.
Qed.

End OrderedDict.

Section Builder.

Implicit Types (ns : list Node) (es : list Edge)
               (node_map : gmap (option string) Node).

(** The element whose cells the hardened builder reads. *)
Lemma build_located (root : Element) :
  _build_diagram_from_root root
  = build_from_cells
      (let model :=
         if String.eqb (el_tag root) "diagram"
         then default root (el_find root "mxGraphModel") else root in
       default model (el_find model "root")).
Proof. reflexivity. Qed.


Lemma build_cell_invariant (cell : Element)
    (st : list Node * list Edge * gmap (option string) Node) :
  cells_invariant st → cells_invariant (build_cell st cell).
Proof.
  destruct st as [[ns es] node_map]. intros (Hn & He & Hm).
  unfold build_cell. simpl in *.
  destruct (bool_decide (el_get cell "id" = Some "0"
                         ∨ el_get cell "id" = Some "1")) eqn:Eid;
    [done|].
  apply bool_decide_eq_false in Eid.
  destruct (bool_decide (el_get cell "vertex" = Some "1")).
  - split_and!; simpl; [|done|].
    + apply Forall_app. split; [done|].
      constructor; [|done]. simpl. split_and!; [done | tauto | tauto].
    + intros k. rewrite filter_app, lookup_insert.
      destruct (decide (el_get cell "id" = k)) as [<-|Hne].
      * rewrite filter_cons_True by done. rewrite filter_nil.
        by rewrite last_snoc.
      * rewrite filter_cons_False by done. rewrite filter_nil.
        by rewrite app_nil_r.
  - destruct (bool_decide (el_get cell "edge" = Some "1")); [|done].
    split_and!; simpl; [done| |done].
    apply Forall_app. split; [done|].
    constructor; [|done]. simpl. split_and!; [done | tauto | tauto].
Qed.

Lemma build_cells_invariant (cells : list Element)
    (st : list Node * list Edge * gmap (option string) Node) :
  cells_invariant st → cells_invariant (fold_left build_cell cells st).
Proof.
  revert st. induction cells as [|c cs IH]; intros st Hst; simpl; [done|].
  by apply IH, build_cell_invariant.
Qed.

Lemma members_snoc ns (node : Node) (p : string) :
  members (ns ++ [node]) p
  = members ns p ++ (if decide (node_parent node = Some p) then [node] else []).
Proof.
  unfold members. by rewrite filter_app.
Qed.

Lemma register_child_invariant node_map ns (gs : list (string * Group))
    (node : Node) :
  groups_invariant node_map ns gs →
  groups_invariant node_map (ns ++ [node]) (register_child node_map gs node).
Proof.
  intros [Hnd Hget].
  assert (∀ p, node_parent node ≠ Some p ∨ ¬ is_container node_map p →
               ∀ grp, ODict.get p gs = Some grp ↔
                 is_container node_map p ∧ members (ns ++ [node]) p ≠ []
                 ∧ grp = mkGroup (container_label node_map p)
                                 (members (ns ++ [node]) p)) as Hsame.
  { intros p Hp grp. rewrite Hget, members_snoc.
    destruct (decide (node_parent node = Some p)) as [E|_];
      [|by rewrite app_nil_r].
    destruct Hp as [?|Hp]; [done|]. split; intros [? _]; done. }
  unfold register_child.
  destruct (node_parent node) as [parent|] eqn:Ep;
    [|split; [done|]; intros p grp; by apply Hsame; left].
  assert (¬ is_container node_map parent →
          groups_invariant node_map (ns ++ [node]) gs) as Hskip.
  { intros Hno. split; [done|]. intros p grp.
    destruct (decide (p = parent)) as [->|Hne].
    - apply Hsame. by right.
    - apply Hsame. left. congruence. }
  destruct (Py.truthy parent) eqn:Et;
    [|apply Hskip; intros [Hne _]; by destruct parent].
  destruct (node_map !! Some parent) as [pnode|] eqn:Em;
    [|apply Hskip; intros (_ & ? & ? & _); congruence].
  destruct (Py.str_in "group" (node_style pnode)
            || Py.str_in "swimlane" (node_style pnode)) eqn:Es.
  2:{ apply Hskip. intros (_ & pn & Hpn & Hstyle). simplify_eq.
      apply orb_false_iff in Es as [E1 E2].
      destruct Hstyle as [H%str_in_occurs|H%str_in_occurs]; congruence. }
  assert (is_container node_map parent) as Hc.
  { split; [by destruct parent|]. exists pnode. split; [done|].
    apply orb_true_iff in Es as [H|H]; [left | right]; by apply str_in_occurs. }
  assert (container_label node_map parent
          = if Py.truthy (node_label pnode) then node_label pnode
            else "Group_" +:+ parent) as Hl
    by (unfold container_label; by rewrite Em).
  rewrite <- Hl.
  set (gs1 := match ODict.get parent gs with
              | Some _ => gs
              | None => ODict.set parent
                          (mkGroup (container_label node_map parent) []) gs
              end).
  assert (NoDup (ODict.keys gs1)) as Hnd1.
  { subst gs1. destruct (ODict.get parent gs); [done|].
    by apply odict_set_NoDup. }
  assert (ODict.get parent gs1
          = Some (mkGroup (container_label node_map parent)
                          (members ns parent))) as Hg1.
  { subst gs1. destruct (ODict.get parent gs) as [g|] eqn:Eg.
    - rewrite Eg. f_equal. by apply Hget in Eg as (_ & _ & ->).
    - rewrite odict_get_set_eq. do 2 f_equal.
      destruct (members ns parent) as [|m ms] eqn:Emem; [done|].
      assert (ODict.get parent gs
              = Some (mkGroup (container_label node_map parent)
                              (members ns parent))) as Hx.
      { apply Hget. split_and!; [done | by rewrite Emem | done]. }
      congruence. }
  assert (∀ p, p ≠ parent → ODict.get p gs1 = ODict.get p gs) as Hother.
  { intros p Hne. subst gs1. destruct (ODict.get parent gs); [done|].
    by apply odict_get_set_ne. }
  rewrite Hg1. simpl. split; [by apply odict_set_NoDup|].
  intros p grp. destruct (decide (p = parent)) as [->|Hne].
  - rewrite odict_get_set_eq, members_snoc.
    rewrite decide_True by done. split.
    + intros [= <-]. split_and!; [done | | done].
      by destruct (members ns parent).
    + by intros (_ & _ & ->).
  - rewrite odict_get_set_ne by done. rewrite Hother by done.
    apply Hsame. left. congruence.
Qed.

Lemma register_children_invariant node_map (ns2 ns1 : list Node)
    (gs : list (string * Group)) :
  groups_invariant node_map ns1 gs →
  groups_invariant node_map (ns1 ++ ns2)
                   (fold_left (register_child node_map) ns2 gs).
Proof.
  revert ns1 gs. induction ns2 as [|n ns2 IH]; intros ns1 gs H; simpl.
  - by rewrite app_nil_r.
  - rewrite (cons_middle n ns1 ns2), app_assoc.
    by apply IH, register_child_invariant.
Qed.

Lemma build_from_cells_invariants (diagram_root : Element) :
  cells_invariant
    (nodes (build_from_cells diagram_root).2,
     edges (build_from_cells diagram_root).2,
     (build_from_cells diagram_root).1)
  ∧ groups_invariant (build_from_cells diagram_root).1
      (nodes (build_from_cells diagram_root).2)
      (groups (build_from_cells diagram_root).2).
Proof.
  unfold build_from_cells.
  pose proof (build_cells_invariant (el_findall diagram_root "mxCell")
                ([], [], ∅)) as Hinv.
  destruct (fold_left build_cell _ _) as [[ns es] node_map]. simpl in *.
  split.
  - apply Hinv. split_and!; simpl; [done | done |].
    intros k. by rewrite lookup_empty.
  - apply (register_children_invariant node_map ns [] []).
    split; [constructor|]. intros p grp. split; [done|].
    by intros (_ & ? & _).
Qed.

End Builder.

(** X9. Whatever the tree, the model built from it holds no node and no
    edge with one of the reserved ids 0 and 1, and the style map of every
    node and edge is the parse of its raw style. *)
Theorem built_cells_wellformed (root : Element) :
  Forall (λ node, node_style_dict node = parse_style (node_style node)
                  ∧ node_id node ≠ Some "0" ∧ node_id node ≠ Some "1")
         (nodes (_build_diagram_from_root root).2)
  ∧ Forall (λ edge, edge_style_dict edge = parse_style (edge_style edge)
                    ∧ edge_id edge ≠ Some "0" ∧ edge_id edge ≠ Some "1")
           (edges (_build_diagram_from_root root).2).
Proof.
  rewrite build_located.
  destruct (build_from_cells_invariants
              (let model :=
                 if String.eqb (el_tag root) "diagram"
                 then default root (el_find root "mxGraphModel") else root in
               default model (el_find model "root"))) as [(Hn & He & _) _].
  split; [exact Hn | exact He].
Qed.

(** X10. The node index of a built model maps an id to the last node
    listed with that id: every node's id is a key, a key's node is one of
    the nodes, and of two nodes sharing an id the later one is indexed. *)
Theorem node_index_last_wins (root : Element) (k : option string) :
  (_build_diagram_from_root root).1 !! k
  = last (filter (λ node, node_id node = k)
                 (nodes (_build_diagram_from_root root).2)).
Proof.
  rewrite build_located.
  destruct (build_from_cells_invariants
              (let model :=
                 if String.eqb (el_tag root) "diagram"
                 then default root (el_find root "mxGraphModel") else root in
               default model (el_find model "root"))) as [(_ & _ & Hm) _].
  apply Hm.
Qed.

(** X11. The group index of a built model has distinct keys, and holds a
    group under [p] exactly when [p] is a container (a non-empty id of an
    indexed node whose raw style mentions group or swimlane) with at least
    one node whose parent is [p]; that group carries the container's label,
    or [Group_<p>] for an empty one, and as children exactly the nodes
    whose parent is [p], in document order. *)
Theorem built_groups_characterised (root : Element) :
  NoDup (ODict.keys (groups (_build_diagram_from_root root).2))
  ∧ ∀ p grp,
      ODict.get p (groups (_build_diagram_from_root root).2) = Some grp ↔
      is_container (_build_diagram_from_root root).1 p
      ∧ members (nodes (_build_diagram_from_root root).2) p ≠ []
      ∧ grp = mkGroup (container_label (_build_diagram_from_root root).1 p)
                      (members (nodes (_build_diagram_from_root root).2) p).
Proof.
  rewrite build_located.
  destruct (build_from_cells_invariants
              (let model :=
                 if String.eqb (el_tag root) "diagram"
                 then default root (el_find root "mxGraphModel") else root in
               default model (el_find model "root"))) as [_ Hg].
  exact Hg.
Qed.

(** ** The emitter, continued *)

Section GroupPassAll.

Variables (depth : nat) (all : list (string * Group)).

(** When every group of [todo] is emitted, the pass appends their blocks
    in order and marks exactly their children. *)
Lemma emit_groups_all (todo : list (string * Group))
    (acc : list string * gset (option string)) :
  (∀ entry, entry ∈ todo →
            is_Some (_emit_subgraph_recursive depth all entry.1 entry.2 0)) →
  ∃ blocks,
    Forall2 (λ entry block,
               _emit_subgraph_recursive depth all entry.1 entry.2 0
               = Some block) todo blocks
    ∧ (emit_groups depth all todo acc).1 = acc.1 ++ concat blocks
    ∧ ∀ x, x ∈ (emit_groups depth all todo acc).2 ↔
           x ∈ acc.2
           ∨ ∃ entry child, entry ∈ todo ∧ child ∈ group_children entry.2
                            ∧ node_id child = x.
Proof.
  revert acc. induction todo as [|[k g] todo IH]; intros acc Hall; simpl.
  - exists []. split_and!; [constructor | by rewrite app_nil_r |].
    intros x. split; [by left|].
    intros [?|(? & ? & ?%elem_of_nil & _)]; done.
  - destruct (Hall (k, g)) as [block Hblock]; [by left|].
    simpl in Hblock. rewrite Hblock.
    destruct (IH (acc.1 ++ block,
                  fold_left (λ s child, s ∪ {[ node_id child ]})
                            (group_children g) acc.2)) as (blocks & Hf & Hl & Hm).
    { intros e He. apply Hall. by right. }
    exists (block :: blocks). split_and!.
    + by constructor.
    + rewrite Hl. simpl. by rewrite app_assoc.
    + intros x. rewrite Hm. simpl. rewrite mark_children. split.
      * intros [[?|(child & ? & ?)]|(e & child & ? & ? & ?)].
        -- by left.
        -- right. exists (k, g), child. split_and!; [by left | done | done].
        -- right. exists e, child. split_and!; [by right | done | done].
      * intros [?|(e & child & [->|?]%elem_of_cons & ? & ?)].
        -- by left; left.
        -- left. right. by exists child.
        -- right. by exists e, child.
Qed.

End GroupPassAll.

(** X12. Over an acyclic group index with distinct keys, emitted with room
    for its nesting, the group pass is the concatenation, in index order,
    of the block of every group of the index, nested or not, and the ids
    kept out of the flat pass are exactly the ids of the children of the
    groups. *)
Theorem group_pass_emits_every_group (depth : nat) (diagram : Diagram) :
  groups_acyclic (groups diagram) →
  NoDup (ODict.keys (groups diagram)) →
  length (groups diagram) < depth →
  ∃ blocks,
    Forall2 (λ entry block,
               _emit_subgraph_recursive depth (groups diagram)
                                        entry.1 entry.2 0 = Some block)
            (groups diagram) blocks
    ∧ group_pass depth diagram = concat blocks
    ∧ ∀ x, x ∈ nodes_emitted_of depth diagram ↔
           ∃ entry child, entry ∈ groups diagram
                          ∧ child ∈ group_children entry.2
                          ∧ node_id child = x.
Proof.
  intros Hacyc Hnd Hlen.
  destruct (emit_groups_all depth (groups diagram) (groups diagram) ([], ∅))
    as (blocks & Hf & Hl & Hm).
  { intros [k g] He. simpl.
    apply (emit_subgraph_returns_below (groups diagram) [] Hacyc).
    - by apply odict_get_entry.
    - constructor.
    - intros p Hp. by apply elem_of_nil in Hp.
    - intros p Hp. by apply elem_of_nil in Hp.
    - simpl. lia. }
  exists blocks. split_and!; [exact Hf | exact Hl |].
  intros x. unfold nodes_emitted_of. rewrite Hm. simpl.
  split; [intros [H|H]; [by apply not_elem_of_empty in H | done] | by right].
Qed.

Lemma group_pass_emits_every_group_witness :
  (groups_acyclic (groups Doc.nested_diagram)
   ∧ NoDup (ODict.keys (groups Doc.nested_diagram))
   ∧ length (groups Doc.nested_diagram) < 8)
  ∧ ∃ blocks,
      length blocks = 2
      ∧ group_pass 8 Doc.nested_diagram = concat blocks
      ∧ (Some "7" ∈ nodes_emitted_of 8 Doc.nested_diagram ↔
         ∃ entry child, entry ∈ groups Doc.nested_diagram
                        ∧ child ∈ group_children entry.2
                        ∧ node_id child = Some "7").
Proof.
  assert (NoDup (ODict.keys (groups Doc.nested_diagram))) as Hnd.
  { apply (NoDup_cons_2 "5" ["6"]); [|apply NoDup_singleton].
    intros H%list_elem_of_singleton. discriminate H. }
  assert (length (groups Doc.nested_diagram) < 8) as Hlen by (simpl; lia).
  split; [by split_and!; try apply nested_groups_acyclic|].
  destruct (group_pass_emits_every_group 8 Doc.nested_diagram
              nested_groups_acyclic Hnd Hlen) as (blocks & Hf & Hl & Hm).
  exists blocks. split_and!; [| exact Hl | exact (Hm (Some "7"))].
  apply Forall2_length in Hf. by rewrite <- Hf.
Defined.

(** X13. A node that cannot be formatted, because it has no id or its
    style gives [shape] as a bare flag, is dropped from the flat pass
    without a trace: the output is the output without that node. *)
Theorem unformattable_node_dropped (depth : nat)
    (node_map : gmap (option string) Node) (ns1 ns2 : list Node)
    (node : Node) (es : list Edge) (gs : list (string * Group))
    (direction diagram_type : string) :
  node_id node = None ∨ node_style_dict node !! "shape" = Some STrue →
  _emit_mermaid depth node_map (mkDiagram (ns1 ++ node :: ns2) es gs)
                direction diagram_type
  = _emit_mermaid depth node_map (mkDiagram (ns1 ++ ns2) es gs)
                  direction diagram_type.
Proof.
  intros H.
  assert (_format_node node = None) as Hf.
  { unfold _format_node. destruct H as [->|H]; [done|].
    rewrite H. by destruct (node_id node). }
  unfold _emit_mermaid. simpl.
  destruct (emit_groups depth gs gs ([], ∅)) as [group_lines nodes_emitted].
  unfold flat_nodes. rewrite !filter_app, !omap_app.
  destruct (decide (node_id node ∉ nodes_emitted)).
  - rewrite filter_cons_True by done. simpl. by rewrite Hf.
  - by rewrite filter_cons_False.
Qed.

Lemma unformattable_node_dropped_witness :
  node_style_dict (mkNode (Some "4") "X" "shape" (parse_style "shape") [] None)
    !! "shape" = Some STrue
  ∧ _emit_mermaid 8 ∅
      (mkDiagram
         ([Doc.start_node]
          ++ mkNode (Some "4") "X" "shape" (parse_style "shape") [] None
          :: []) [] []) "TD" "flowchart"
    = _emit_mermaid 8 ∅ (mkDiagram ([Doc.start_node] ++ []) [] [])
                    "TD" "flowchart".
Proof.
  assert (node_style_dict
            (mkNode (Some "4") "X" "shape" (parse_style "shape") [] None)
            !! "shape" = Some STrue) as H by (vm_compute; reflexivity).
  split; [exact H|].
  exact (unformattable_node_dropped 8 ∅ [Doc.start_node] []
           (mkNode (Some "4") "X" "shape" (parse_style "shape") [] None)
           [] [] "TD" "flowchart" (or_intror H)).
Defined.

Lemma join_head (sep head : string) (rest : list string) :
  ∃ tail, Py.join sep (head :: rest) = head +:+ tail.
Proof.
  destruct rest as [|l ls].
  - exists EmptyString. simpl. induction head as [|c h IH]; simpl; [done|].
    by rewrite <- IH.
  - exists (sep +:+ Py.join sep (l :: ls)). by rewrite join_cons.
Qed.

(** X14. The diagram type never changes the output: whatever it is, the
    text starts with the flowchart header for the direction given, and
    [convert] returns the same under any two diagram types. *)
Theorem diagram_type_ignored (L : Libs) (strict_mode : bool) (depth : nat)
    (node_map : gmap (option string) Node) (diagram : Diagram)
    (input_data : string) (diagram_index : Z)
    (direction diagram_type other_type : string) :
  _emit_mermaid depth node_map diagram direction diagram_type
  = _emit_mermaid depth node_map diagram direction other_type
  ∧ (∃ rest, _emit_mermaid depth node_map diagram direction diagram_type
             = "flowchart " +:+ direction +:+ rest)
  ∧ convert L strict_mode depth input_data diagram_index direction diagram_type
    = convert L strict_mode depth input_data diagram_index direction other_type.
Proof.
  assert (∀ nm d t1 t2, _emit_mermaid depth nm d direction t1
                        = _emit_mermaid depth nm d direction t2) as Hsame.
  { intros nm d t1 t2. unfold _emit_mermaid.
    by destruct (String.eqb t1 "flowchart"), (String.eqb t2 "flowchart"). }
  assert (∀ page, convert_page L strict_mode depth page direction diagram_type
                  = convert_page L strict_mode depth page direction other_type)
    as Hpage.
  { intros page. unfold convert_page.
    destruct (_parse_xml L strict_mode page) as [[root|]|e]; simpl; [|done..].
    destruct (_build_diagram_from_root root) as [nm d].
    by rewrite (Hsame nm d diagram_type other_type). }
  split_and!.
  - apply Hsame.
  - unfold _emit_mermaid.
    destruct (emit_groups depth (groups diagram) (groups diagram) ([], ∅))
      as [group_lines nodes_emitted].
    assert ((if String.eqb diagram_type "flowchart"
             then ["flowchart " +:+ direction]
             else ["flowchart " +:+ direction]) = ["flowchart " +:+ direction])
      as -> by (by destruct (String.eqb diagram_type "flowchart")).
    destruct (join_head nl ("flowchart " +:+ direction)
                (group_lines
                 ++ omap _format_node
                      (flat_nodes nodes_emitted (nodes diagram))
                 ++ omap (λ edge, if resolvable node_map edge
                                  then _format_edge edge else None)
                      (edges diagram))) as [tail Ht].
    exists tail. rewrite <- append_assoc. exact Ht.
  - unfold convert.
    destruct (_decompress_data L strict_mode [] input_data) as [[|p ps]|e];
      simpl; [done | | done].
    destruct (bool_decide _); [destruct strict_mode|]; simpl; try done;
      repeat case_match; by rewrite ?Hpage.
Qed.

(** X15. The connector of an edge is one of four, decided by two tests:
    it is dotted exactly when the [dashed] key has a truthy value (the
    bare flag or any non-empty text, [0] included; an empty [dashed=]
    leaves it solid), and it has no head exactly under [endArrow=none]. *)
Theorem edge_arrow_exact (style : gmap string style_value) :
  (dashed_value style ∧ ¬ headless style ∧ edge_arrow style = "-.->")
  ∨ (dashed_value style ∧ headless style ∧ edge_arrow style = "-.-")
  ∨ (¬ dashed_value style ∧ ¬ headless style ∧ edge_arrow style = "-->")
  ∨ (¬ dashed_value style ∧ headless style ∧ edge_arrow style = "--").
Proof.
  assert (headless style ↔ style_is style "endArrow" "none" = true) as Hh
    by (symmetry; apply headless_spec).
  assert ((dashed_value style
           ∧ (style_truthy style "dashed" || style_is style "dashed" "1") = true)
          ∨ (¬ dashed_value style
             ∧ (style_truthy style "dashed" || style_is style "dashed" "1")
               = false)) as [[Hd E]|[Hd E]].
  { unfold dashed_value, style_truthy, style_is.
    destruct (style !! "dashed") as [[[|c v]|]|]; simpl.
    - right. split; [|done]. intros [?|(v & ? & ?)]; by simplify_eq.
    - left. split; [|done]. right. by exists (String c v).
    - left. split; [by left | done].
    - right. split; [|done]. intros [?|(v & ? & ?)]; by simplify_eq. }
  - unfold edge_arrow. rewrite E.
    destruct (style_is style "endArrow" "none") eqn:Ea.
    + right; left. split_and!; [done | by apply Hh | done].
    + left. split_and!; [done | | done]. intros H%Hh. congruence.
  - unfold edge_arrow. rewrite E.
    destruct (style_is style "endArrow" "none") eqn:Ea.
    + do 3 right. split_and!; [done | by apply Hh | done].
    + do 2 right; left. split_and!; [done | | done]. intros H%Hh. congruence.
Qed.

(** ** The original converter *)

Section OriginalConverter.

Variables (L : Libs) (decode_utf8 : list Byte.byte → option string).

Lemma original_fragment_page (strict_mode : bool) (d page : string) :
  Original.decode_fragment L decode_utf8 strict_mode d = Ret (Some page) →
  occurs marker page.
Proof.
  unfold Original.decode_fragment, Original.inflate_fragment.
  destruct (b64decode L (Py.strip d)) as [decoded| |];
    [|by destruct strict_mode..].
  destruct (zlib_decompress L decoded (-15) ≫= decode_utf8) as [text|]; simpl;
    [|by destruct strict_mode].
  destruct (Py.str_in marker text) eqn:E; [|by destruct strict_mode].
  intros [= <-]. by apply str_in_occurs.
Qed.

Lemma original_fragments_pages (strict_mode : bool)
    (diagram_pages diagrams pages : list string) :
  Original.decode_fragments L decode_utf8 strict_mode diagram_pages diagrams
  = Ret pages →
  ∃ more, pages = diagram_pages ++ more ∧ length more ≤ length diagrams
          ∧ Forall (occurs marker) more.
Proof.
  revert diagram_pages. induction diagrams as [|d ds IH]; intros pages0; simpl.
  - intros [= <-]. exists []. by rewrite app_nil_r.
  - destruct (Original.decode_fragment L decode_utf8 strict_mode d)
      as [found|e] eqn:E; simpl; [|done].
    intros (more & -> & Hlen & Hall)%IH.
    destruct found as [p|]; simpl.
    + exists (p :: more). rewrite <- app_assoc. split_and!; [done | simpl; lia |].
      constructor; [by eapply original_fragment_page | done].
    + exists more. rewrite app_nil_r. split_and!; [done | lia | done].
Qed.

Lemma original_fragments_relaxed (diagram_pages diagrams : list string) :
  ∃ pages,
    Original.decode_fragments L decode_utf8 false diagram_pages diagrams
    = Ret pages.
Proof.
  revert diagram_pages. induction diagrams as [|d ds IH]; intros pages0; simpl;
    [by eexists|].
  unfold Original.decode_fragment.
  destruct (Original.inflate_fragment L decode_utf8 (Py.strip d)); simpl;
    apply IH.
Qed.

End OriginalConverter.

(** X16. The original extractor, too, only appends pages that hold the
    marker, at most one per wrapper fragment, under either policy (it has
    no last resort), and never raises under the relaxed one. *)
Theorem original_extraction_appends (L : Libs)
    (decode_utf8 : list Byte.byte → option string) (strict_mode : bool)
    (diagram_pages : list string) (xml_data : string) :
  (∃ pages, Original._decompress_data L decode_utf8 false diagram_pages xml_data
            = Ret pages)
  ∧ ∀ pages,
      Original._decompress_data L decode_utf8 strict_mode diagram_pages xml_data
      = Ret pages →
      ∃ more, pages = diagram_pages ++ more
              ∧ length more ≤ Nat.max 1 (length (Re.findall_diagram xml_data))
              ∧ Forall (occurs marker) more.
Proof.
  unfold Original._decompress_data. split.
  - destruct (Re.findall_diagram xml_data);
      [destruct (Py.str_in marker xml_data); by eexists|].
    apply original_fragments_relaxed.
  - intros pages.
    destruct (Re.findall_diagram xml_data) as [|d ds].
    + destruct (Py.str_in marker xml_data) eqn:Em.
      * intros [= <-]. exists [xml_data]. split_and!; [done | simpl; lia |].
        constructor; [by apply str_in_occurs | done].
      * destruct strict_mode; [done|]. intros [= <-]. exists [].
        rewrite app_nil_r. split_and!; [done | simpl; lia | done].
    + intros (more & -> & Hlen & Hall)%original_fragments_pages.
      exists more. split_and!; [done | lia | done].
Qed.

Lemma original_extraction_appends_witness :
  Original._decompress_data Sample.libs (λ _, None) true ["first"] Doc.start
  = Ret ["first"; Doc.start]
  ∧ ∃ more, ["first"; Doc.start] = ["first"] ++ more
            ∧ Forall (occurs marker) more.
Proof.
  assert (Original._decompress_data Sample.libs (λ _, None) true ["first"]
            Doc.start = Ret ["first"; Doc.start]) as H
    by (vm_compute; reflexivity).
  split; [exact H|].
  destruct (proj2 (original_extraction_appends Sample.libs (λ _, None) true
                     ["first"] Doc.start) _ H) as (more & E & _ & Hall).
  exists more. split; [exact E | exact Hall].
Defined.

(** X17. On an input in which the wrapper pattern finds no fragment, and
    which holds the marker or is no [mxfile] with pages of its own, the two
    extractors agree under either policy. *)
Theorem extractors_agree_without_wrapper (L : Libs)
    (decode_utf8 : list Byte.byte → option string) (strict_mode : bool)
    (diagram_pages : list string) (xml_data : string) :
  Re.findall_diagram xml_data = [] →
  occurs marker xml_data ∨ find_diagrams L xml_data = [] →
  Original._decompress_data L decode_utf8 strict_mode diagram_pages xml_data
  = _decompress_data L strict_mode diagram_pages xml_data.
Proof.
  intros Hre H. unfold Original._decompress_data, _decompress_data.
  rewrite Hre.
  destruct (Py.str_in marker xml_data) eqn:Em; [done|].
  destruct H as [H%str_in_occurs|H]; [congruence|]. by rewrite H.
Qed.

Lemma extractors_agree_without_wrapper_witness :
  (Re.findall_diagram Doc.start = [] ∧ occurs marker Doc.start)
  ∧ Original._decompress_data Sample.libs (λ _, None) true [] Doc.start
    = _decompress_data Sample.libs true [] Doc.start.
Proof.
  assert (Re.findall_diagram Doc.start = []) as Hre
    by (vm_compute; reflexivity).
  assert (occurs marker Doc.start) as Hm
    by (apply str_in_occurs; vm_compute; reflexivity).
  split; [done|].
  exact (extractors_agree_without_wrapper Sample.libs (λ _, None) true []
           Doc.start Hre (or_introl Hm)).
Defined.

(** X18. Where the two extractors part: an input that holds the marker
    inside a wrapper whose first fragment is no inflatable payload is one
    page for the hardened extractor, and a
    [DiagramDecompressionError] for the original one under the strict
    policy. *)
Theorem wrapped_inline_page_diverges (L : Libs)
    (decode_utf8 : list Byte.byte → option string)
    (diagram_pages : list string) (xml_data d : string) (ds : list string) :
  occurs marker xml_data →
  Re.findall_diagram xml_data = d :: ds →
  Original.inflate_fragment L decode_utf8 (Py.strip d) = None →
  _decompress_data L true diagram_pages xml_data
  = Ret (diagram_pages ++ [xml_data])
  ∧ Original._decompress_data L decode_utf8 true diagram_pages xml_data
    = Raise DiagramDecompressionError.
Proof.
  intros Hm%str_in_occurs Hre Hin. split.
  - unfold _decompress_data. by rewrite Hm.
  - unfold Original._decompress_data. rewrite Hre. simpl.
    unfold Original.decode_fragment. by rewrite Hin.
Qed.

Lemma wrapped_inline_page_diverges_witness :
  (occurs marker Doc.wrapped
   ∧ Re.findall_diagram Doc.wrapped = [Doc.start]
   ∧ Original.inflate_fragment Sample.libs (λ _, None) (Py.strip Doc.start)
     = None)
  ∧ _decompress_data Sample.libs true [] Doc.wrapped = Ret ([] ++ [Doc.wrapped])
  ∧ Original._decompress_data Sample.libs (λ _, None) true [] Doc.wrapped
    = Raise DiagramDecompressionError.
Proof.
  assert (occurs marker Doc.wrapped) as Hm
    by (apply str_in_occurs; vm_compute; reflexivity).
  assert (Re.findall_diagram Doc.wrapped = [Doc.start]) as Hre
    by (vm_compute; reflexivity).
  assert (Original.inflate_fragment Sample.libs (λ _, None)
            (Py.strip Doc.start) = None) as Hin by (vm_compute; reflexivity).
  split; [done|].
  exact (wrapped_inline_page_diverges Sample.libs (λ _, None) [] Doc.wrapped
           Doc.start [] Hm Hre Hin).
Defined.

(** X19. The two builders agree on a tree that is no [diagram] element and
    has a [root] child.  Without a [root] child they part: the original
    one raises [DiagramParsingError] when strict and returns the empty
    model when relaxed, the hardened one reads the cells directly under
    the element. *)
Theorem builders_agree_on_root (strict_mode : bool) (root : Element) :
  el_tag root ≠ "diagram" →
  (∀ diagram_root,
     el_find root "root" = Some diagram_root →
     Original._build_diagram_from_root strict_mode root
     = Ret (_build_diagram_from_root root))
  ∧ (el_find root "root" = None →
     Original._build_diagram_from_root strict_mode root
     = (if strict_mode then Raise DiagramParsingError
        else Ret (∅, mkDiagram [] [] []))
     ∧ _build_diagram_from_root root = build_from_cells root).
Proof.
  intros Htag%String.eqb_neq.
  rewrite build_located, Htag. unfold Original._build_diagram_from_root.
  split.
  - intros diagram_root ->. done.
  - intros ->. done.
Qed.

Lemma builders_agree_on_root_witness :
  (el_tag (Doc.parsed Doc.start) ≠ "diagram"
   ∧ is_Some (el_find (Doc.parsed Doc.start) "root"))
  ∧ Original._build_diagram_from_root true (Doc.parsed Doc.start)
    = Ret (_build_diagram_from_root (Doc.parsed Doc.start)).
Proof.
  assert (el_tag (Doc.parsed Doc.start) ≠ "diagram") as Htag
    by (vm_compute; discriminate).
  assert (∃ r, el_find (Doc.parsed Doc.start) "root" = Some r) as [r Hr]
    by (eexists; vm_compute; reflexivity).
  split; [split; [exact Htag | by exists r]|].
  exact (proj1 (builders_agree_on_root true (Doc.parsed Doc.start) Htag) r Hr).
Defined.

(** ** The orchestrator, continued *)

(** X20. A page index within the page list selects that page: [convert]
    is the conversion of the page at the index, under the handler of the
    policy. *)
Theorem page_selected (L : Libs) (strict_mode : bool) (depth : nat)
    (input_data : string) (diagram_index : Z)
    (direction diagram_type : string) (pages : list string) (page : string) :
  extract_pages L strict_mode input_data = Ret pages →
  (0 <= diagram_index)%Z →
  pages !! Z.to_nat diagram_index = Some page →
  convert L strict_mode depth input_data diagram_index direction diagram_type
  = on_failure strict_mode
      (convert_page L strict_mode depth page direction diagram_type).
Proof.
  unfold extract_pages. intros Hx Hidx Hpage. unfold convert. rewrite Hx.
  simpl. destruct pages as [|page0 pages]; [done|].
  assert (Z.to_nat diagram_index < length (page0 :: pages))%nat as Hlt
    by (eapply lookup_lt_Some; eassumption).
  rewrite bool_decide_eq_false_2 by lia. simpl. by rewrite Hpage.
Qed.

Lemma page_selected_witness :
  (extract_pages Sample.libs true Doc.two_pages
   = Ret ["<mxGraphModel><root><mxCell id='2' value='One' vertex='1'/></root></mxGraphModel>";
          "<mxGraphModel><root><mxCell id='3' value='Two' vertex='1'/></root></mxGraphModel>"]
   ∧ (0 <= 1)%Z)
  ∧ convert Sample.libs true 8 Doc.two_pages 1 "TD" "flowchart"
    = on_failure true
        (convert_page Sample.libs true 8
           "<mxGraphModel><root><mxCell id='3' value='Two' vertex='1'/></root></mxGraphModel>"
           "TD" "flowchart").
Proof.
  assert (extract_pages Sample.libs true Doc.two_pages
          = Ret ["<mxGraphModel><root><mxCell id='2' value='One' vertex='1'/></root></mxGraphModel>";
                 "<mxGraphModel><root><mxCell id='3' value='Two' vertex='1'/></root></mxGraphModel>"])
    as Hx by (vm_compute; reflexivity).
  assert (0 <= 1)%Z as Hidx by lia.
  split; [done|].
  exact (page_selected Sample.libs true 8 Doc.two_pages 1 "TD" "flowchart"
           _ _ Hx Hidx eq_refl).
Defined.

(** X21. On a page the parser accepts, the policy makes no difference:
    under either one the page converts, without raising, to the emission
    of the model built from the root the parser returned. *)
Theorem parsable_page_policy_free (L : Libs) (strict_mode : bool)
    (depth : nat) (xml_diagram direction diagram_type : string)
    (root : Element) :
  ET_fromstring L (normalise_xml xml_diagram) = Some root →
  convert_page L strict_mode depth xml_diagram direction diagram_type
  = Ret (_emit_mermaid depth
           (_build_diagram_from_root (model_root root)).1
           (_build_diagram_from_root (model_root root)).2
           direction diagram_type).
Proof.
  intros Hparse. unfold convert_page, _parse_xml. rewrite Hparse. simpl.
  by destruct (_build_diagram_from_root (model_root root)).
Qed.

Lemma parsable_page_policy_free_witness :
  is_Some (ET_fromstring Sample.libs (normalise_xml Doc.swimlane))
  ∧ convert_page Sample.libs true 8 Doc.swimlane "TD" "flowchart"
    = convert_page Sample.libs false 8 Doc.swimlane "TD" "flowchart".
Proof.
  assert (∃ root, ET_fromstring Sample.libs (normalise_xml Doc.swimlane)
                  = Some root) as [root Hr]
    by (eexists; vm_compute; reflexivity).
  split; [by exists root|].
  rewrite (parsable_page_policy_free Sample.libs true 8 Doc.swimlane
             "TD" "flowchart" root Hr).
  rewrite (parsable_page_policy_free Sample.libs false 8 Doc.swimlane
             "TD" "flowchart" root Hr).
  reflexivity.
Defined.
